(** * pop-fe: disc-image packaging helpers, embedded from [pop-fe.py]

    The development follows the Python source function by function:
    - [Toc]        : [get_toc_from_cu2] and its local [bcd];
    - [MagicWord]  : [generate_magic_word];
    - [MemoryCard] : [check_memory_card], its caller in the main loop, and
                     [create_blank_mc];
    - [Libcrypt]   : both branches of [apply_ppf].

    Python values are modelled as follows.  A [bytes]/[bytearray] is a
    [list Z] (every element in [0,256)); a [str] is a [string] (the files
    read are ASCII); a Python [int] is a [Z]; a call that may raise is a
    computation in the [result] monad below; the file system is a finite map
    from paths to contents. *)

From Stdlib Require Import ZArith List String Ascii Bool Lia.
From stdpp Require Import base option list gmap strings pretty.

Open Scope Z_scope.

(** ** Exceptions and the error monad *)

Inductive exn : Type :=
| TypeError
| ValueError
| KeyError
| StructError
| FileNotFoundError
| BadZipFile
| Exception (msg : string).

Inductive result (A : Type) : Type :=
| Ok (a : A)
| Raise (e : exn).
Arguments Ok {A} a.
Arguments Raise {A} e.

Definition rbind {A B} (m : result A) (k : A -> result B) : result B :=
  match m with
  | Ok a => k a
  | Raise e => Raise e
  end.

#[global] Instance result_ret : MRet result := fun _ a => Ok a.
#[global] Instance result_bind : MBind result := fun _ _ k m => rbind m k.

(** A [for] loop whose body may raise. *)
Fixpoint for_each {A S : Type} (body : S -> A -> result S) (st : S) (l : list A)
  : result S :=
  match l with
  | [] => Ok st
  | x :: l' => st' ← body st x; for_each body st' l'
  end.

(** ** Byte arrays *)

(** [b[lo:hi]] for constant non-negative bounds. *)
Definition slice {A} (lo hi : nat) (l : list A) : list A :=
  take (hi - lo) (drop lo l).

(** [b[i] = v] on a [bytearray]: [IndexError]/[ValueError] are both reported
    as [ValueError] here; neither can happen in the code below. *)
Definition bytearray_set (b : list Z) (i : nat) (v : Z) : result (list Z) :=
  if bool_decide (i < length b)%nat && (0 <=? v) && (v <? 256)
  then Ok (<[i := v]> b)
  else Raise ValueError.

(** ** Text *)

(** [s[n:]] and [s[lo:hi]] on a [str]. *)
Fixpoint str_drop (n : nat) (s : string) : string :=
  match n, s with
  | O, _ => s
  | S n', EmptyString => EmptyString
  | S n', String _ s' => str_drop n' s'
  end.

Definition str_slice (lo hi : nat) (s : string) : string :=
  substring lo (hi - lo) s.

(** [re.search('^p', s)]: without [re.MULTILINE] the anchor only matches at
    the start of the string, and the patterns used are literal. *)
Definition re_search_start (p s : string) : bool := String.prefix p s.

(** Whitespace stripped by [int()]: the characters below 256 for which
    [str.isspace()] holds. *)
Definition is_space (c : ascii) : bool :=
  let n := nat_of_ascii c in
  ((9 <=? n)%nat && (n <=? 13)%nat) || ((28 <=? n)%nat && (n <=? 32)%nat) ||
  (n =? 133)%nat || (n =? 160)%nat.

Fixpoint lstrip (s : list ascii) : list ascii :=
  match s with
  | c :: s' => if is_space c then lstrip s' else s
  | [] => []
  end.

Definition strip (s : list ascii) : list ascii :=
  rev (lstrip (rev (lstrip s))).

Definition digit_val (c : ascii) : option Z :=
  let n := nat_of_ascii c in
  if ((48 <=? n)%nat && (n <=? 57)%nat) then Some (Z.of_nat n - 48) else None.

(** Decimal digits, with single underscores allowed between two digits. *)
Fixpoint int_digits (acc : Z) (after_digit : bool) (s : list ascii) : option Z :=
  match s with
  | [] => if after_digit then Some acc else None
  | c :: s' =>
      match digit_val c with
      | Some d => int_digits (10 * acc + d) true s'
      | None =>
          if Ascii.eqb c "_"%char && after_digit
          then int_digits acc false s'
          else None
      end
  end.

(** The number of digits of a literal. *)
Definition count_digits (s : list ascii) : nat :=
  length (List.filter (fun c => bool_decide (is_Some (digit_val c))) s).

(** [int(s)] for a [str] argument (base 10).  A literal of more than 4300
    digits is refused (the default limit of Python 3.11 and later). *)
Definition py_int (s : string) : result Z :=
  let body := strip (list_ascii_of_string s) in
  let parsed :=
    match body with
    | "+"%char :: r => int_digits 0 false r
    | "-"%char :: r => Z.opp <$> int_digits 0 false r
    | _ => int_digits 0 false body
    end in
  match parsed with
  | Some z => if (4300 <? count_digits body)%nat then Raise ValueError else Ok z
  | None => Raise ValueError
  end.

(** ** Files *)

(** An open file object: its contents and the current position. *)
Record file : Type := File { f_data : list Z; f_pos : nat }.

Definition f_tell (f : file) : nat := f_pos f.

Definition f_seek (n : nat) (f : file) : file := File (f_data f) n.

(** [f.read(n)]: at most [n] bytes from the current position. *)
Definition f_read (n : nat) (f : file) : list Z * file :=
  let buf := take n (drop (f_pos f) (f_data f)) in
  (buf, File (f_data f) (f_pos f + length buf)).

(** [f.write(buf)]: overwrite at the current position; a position past the
    end of the file leaves a hole of zero bytes. *)
Definition f_write (buf : list Z) (f : file) : file :=
  let padded := f_data f ++ replicate (f_pos f - length (f_data f)) 0 in
  File (take (f_pos f) padded ++ buf ++ drop (f_pos f + length buf) (f_data f))
       (f_pos f + length buf).

(** The file system: path to contents. *)
Abbreviation filesystem := (gmap string (list Z)).

(** [os.stat(p).st_size] *)
Definition st_size (fs : filesystem) (p : string) : result nat :=
  match fs !! p with
  | Some d => Ok (length d)
  | None => Raise FileNotFoundError
  end.

(** [open(p, 'rb')] / [open(p, 'rb+')] / [open(p, 'r')] *)
Definition open_existing (fs : filesystem) (p : string) : result file :=
  match fs !! p with
  | Some d => Ok (File d 0)
  | None => Raise FileNotFoundError
  end.

(** * TOC synthesis *)

Module Toc.

(** [bcd] as written: [int(i % 10) + 16 * (int(i / 10) % 10)], with the
    truncated quotient [Z.quot] for [int(i / 10)].  [i / 10] is a float
    division: its truncation is this quotient for every [i] below
    [10 * 2^50] in absolute value ([py_bcd_small]); [More.py_bcd] follows
    the float for every [i]. *)
Definition bcd (i : Z) : Z := i mod 10 + 16 * (Z.quot i 10 mod 10).

(** The decoder used by the specification's round-trip property. *)
Definition decode_bcd (b : Z) : Z := Z.land b 15 + 10 * Z.shiftr b 4.

Definition _toc_header : list Z :=
  [0x41; 0x00; 0xa0; 0x00; 0x00; 0x00; 0x00; 0x01; 0x20; 0x00;
   0x01; 0x00; 0xa1; 0x00; 0x00; 0x00; 0x00; 0x00; 0x00; 0x00;
   0x01; 0x00; 0xa2; 0x00; 0x00; 0x00; 0x00; 0x00; 0x00; 0x00].

(** [f.readlines()]: the lines of a text, each with its newline. *)
Fixpoint readlines (s : string) : list string :=
  match s with
  | EmptyString => []
  | String c s' =>
      if Ascii.eqb c "010"%char then String c EmptyString :: readlines s'
      else match readlines s' with
           | [] => [String c EmptyString]
           | l :: ls => String c l :: ls
           end
  end.

(** First loop: the last [ntracks] and [trk end] lines win. *)
Definition scan_line (st : option Z * option string) (line : string)
  : result (option Z * option string) :=
  num_tracks ←
    (if re_search_start "ntracks" line
     then n ← py_int (str_drop 7 line); Ok (Some n)
     else Ok st.1);
  let trk_end :=
    if re_search_start "trk end" line then Some (str_drop 10 line) else st.2 in
  Ok (num_tracks, trk_end).

(** [bcd(None)] and [None[:2]] raise [TypeError]. *)
Definition not_none {A} (o : option A) : result A :=
  match o with
  | Some a => Ok a
  | None => Raise TypeError
  end.

Record track_state : Type :=
  TrackState { ts_track : Z; ts_toc : list Z; ts_buf : list Z }.

(** Second loop: one record per [data]/[track] line.  [buf] is the same
    [bytearray] in every iteration; [toc + buf] copies it. *)
Definition track_step (st : track_state) (line : string) : result track_state :=
  if negb (re_search_start "data" line) && negb (re_search_start "track" line)
  then Ok st
  else
    let msf := str_drop 10 line in
    let track := ts_track st in
    buf ← bytearray_set (ts_buf st) 0 (if track =? 1 then 0x41 else 0x01);
    buf ← bytearray_set buf 2 (bcd track);
    m ← py_int (str_slice 0 2 msf);
    buf ← bytearray_set buf 7 (bcd m);
    s ← py_int (str_slice 3 5 msf);
    buf ← bytearray_set buf 8 (bcd s);
    f ← py_int (str_slice 6 8 msf);
    buf ← bytearray_set buf 9 (bcd f);
    Ok (TrackState (track + 1) (ts_toc st ++ buf) buf).

(** [get_toc_from_cu2], on the lines read from the descriptor. *)
Definition toc_from_lines (lines : list string) : result (list Z) :=
  let toc := _toc_header in
  hdr ← for_each scan_line (None, None) lines;
  num_tracks ← not_none hdr.1;
  toc ← bytearray_set toc 17 (bcd num_tracks);
  trk_end ← not_none hdr.2;
  m ← py_int (str_slice 0 2 trk_end);
  toc ← bytearray_set toc 27 (bcd m);
  s ← py_int (str_slice 3 5 trk_end);
  toc ← bytearray_set toc 28 (bcd s);
  f ← py_int (str_slice 6 8 trk_end);
  toc ← bytearray_set toc 29 (bcd f);
  st ← for_each track_step (TrackState 1 toc (replicate 10 0)) lines;
  Ok (ts_toc st).


End Toc.

(** ** Descriptions used to state the TOC properties *)

Module TocSpec.
Import Toc.

(** A line that the second loop does not skip. *)
Definition is_track_line (line : string) : bool :=
  re_search_start "data" line || re_search_start "track" line.

(** The three two-digit fields [msf[:2]], [msf[3:5]], [msf[6:8]]. *)
Definition msf_fields (msf : string) : result (Z * Z * Z) :=
  m ← py_int (str_slice 0 2 msf);
  s ← py_int (str_slice 3 5 msf);
  f ← py_int (str_slice 6 8 msf);
  Ok (m, s, f).

(** The record the code emits for track number [k] starting at [msf]. *)
Definition track_record (k : Z) (msf : Z * Z * Z) : list Z :=
  [if k =? 1 then 0x41 else 0x01; 0; bcd k; 0; 0; 0; 0;
   bcd msf.1.1; bcd msf.1.2; bcd msf.2].

Fixpoint records (k : Z) (msfs : list (Z * Z * Z)) : list Z :=
  match msfs with
  | [] => []
  | t :: ts => track_record k t ++ records (k + 1) ts
  end.



(** The shape of the scratch [buf]: only bytes 0, 2, 7, 8, 9 are ever set. *)
Definition good_buf (buf : list Z) : Prop :=
  exists b0 b2 b7 b8 b9, buf = [b0; 0; b2; 0; 0; 0; 0; b7; b8; b9].

(** The header after the four field updates. *)
Definition header_of (N : Z) (e : Z * Z * Z) : list Z :=
  [0x41; 0x00; 0xa0; 0x00; 0x00; 0x00; 0x00; 0x01; 0x20; 0x00;
   0x01; 0x00; 0xa1; 0x00; 0x00; 0x00; 0x00; bcd N; 0x00; 0x00;
   0x01; 0x00; 0xa2; 0x00; 0x00; 0x00; 0x00; bcd e.1.1; bcd e.1.2; bcd e.2].

Definition nl : string := String "010"%char EmptyString.



End TocSpec.

(** * Magic-word derivation *)

Module MagicWord.

(** [s.find(sub)]: [None] stands for [-1]. *)
Definition py_find (sub s : string) : option nat := String.index 0 sub s.

(** [s.find(sub) > 0] *)
Definition find_positive (sub s : string) : bool :=
  match py_find sub s with
  | Some (S _) => true
  | _ => false
  end.

(** [s[:-1]] *)
Fixpoint str_init (s : string) : string :=
  match s with
  | EmptyString => EmptyString
  | String c s' =>
      match s' with
      | EmptyString => EmptyString
      | _ => String c (str_init s')
      end
  end.

Definition section_header : string := "Sectors with LibCrypt protection".

(** The text searched for markers: from the section header up to the next
    occurrence of [table]; when there is none, [b[:idx]] with [idx = -1]
    drops the last character. *)
Definition protection_section (b : string) : option string :=
  match py_find section_header b with
  | None => None
  | Some idx =>
      let b := str_drop idx b in
      Some (match py_find "table" b with
            | Some idx => substring 0 idx b
            | None => str_init b
            end)
  end.

(** The sixteen [if] statements, in source order: primary marker, alternate
    marker, mask. *)
Definition markers : list (string * string * Z) :=
  [("<td>14105</td>", "<td>14110</td>", 0x8000);
   ("<td>14231</td>", "<td>14236</td>", 0x4000);
   ("<td>14485</td>", "<td>14490</td>", 0x2000);
   ("<td>14579</td>", "<td>14584</td>", 0x1000);
   ("<td>14649</td>", "<td>14654</td>", 0x0800);
   ("<td>14899</td>", "<td>14904</td>", 0x0400);
   ("<td>15056</td>", "<td>15061</td>", 0x0200);
   ("<td>15130</td>", "<td>15135</td>", 0x0100);
   ("<td>15242</td>", "<td>15247</td>", 0x0080);
   ("<td>15312</td>", "<td>15317</td>", 0x0040);
   ("<td>15378</td>", "<td>15383</td>", 0x0020);
   ("<td>15628</td>", "<td>15633</td>", 0x0010);
   ("<td>15919</td>", "<td>15924</td>", 0x0008);
   ("<td>16031</td>", "<td>16036</td>", 0x0004);
   ("<td>16101</td>", "<td>16106/td>", 0x0002);
   ("<td>16167</td>", "<td>16172</td>", 0x0001)]%string.

Definition marker_hit (b : string) (e : string * string * Z) : bool :=
  find_positive e.1.1 b || find_positive e.1.2 b.

Definition magic_of_section (b : string) : Z :=
  fold_left (fun mw e => if marker_hit b e then Z.lor mw e.2 else mw) markers 0.

(** [generate_magic_word], on the status and decoded body of the response. *)
Definition generate_magic_word (status_code : Z) (content : string) : result Z :=
  if negb (status_code =? 200) then Raise (Exception "Failed to fetch file")
  else
    match protection_section content with
    | None => Ok 0
    | Some b => Ok (magic_of_section b)
    end.



(** A report whose protection section holds only the alternate marker of the
    fifteenth pair, spelled as the other alternates are. *)
Definition report_16106 : string :=
  ("<table><tr><th>Sectors with LibCrypt protection</th></tr>" ++
   "<tr><td>16106</td><td>03:34:56</td></tr></table>")%string.

End MagicWord.

(** * Memory cards *)

Module MemoryCard.

(** One raw card image. *)
Definition MC_SIZE : nat := Z.to_nat 131072.

(** [check_memory_card]: every [if] stats the file again; falling off the
    end returns [None]. *)
Definition check_memory_card (fs : filesystem) (f : string)
  : result (option (list (list Z))) :=
  sz ← st_size fs f;
  if Z.of_nat sz =? 131072 then
    mc ← open_existing fs f;
    let (img, mc) := f_read MC_SIZE mc in
    Ok (Some [img])
  else
  sz ← st_size fs f;
  if Z.of_nat sz =? 131200 then
    mc ← open_existing fs f;
    let mc := f_seek (Z.to_nat 0x80) mc in
    let (img, mc) := f_read MC_SIZE mc in
    Ok (Some [img])
  else
  sz ← st_size fs f;
  if Z.of_nat sz =? 131136 then
    mc ← open_existing fs f;
    let mc := f_seek (Z.to_nat 0x40) mc in
    let (img, mc) := f_read MC_SIZE mc in
    Ok (Some [img])
  else
  sz ← st_size fs f;
  if Z.of_nat sz =? 262144 then
    mc ← open_existing fs f;
    let (img0, mc) := f_read MC_SIZE mc in
    let (img1, mc) := f_read MC_SIZE mc in
    Ok (Some [img0; img1])
  else
  sz ← st_size fs f;
  if Z.of_nat sz =? 134976 then
    mc ← open_existing fs f;
    let mc := f_seek (Z.to_nat 0xf40) mc in
    let (img, mc) := f_read MC_SIZE mc in
    Ok (Some [img])
  else
  Ok None.

(** The memory-card test that opens each round of the main loop (lines
    1248-1256): what has been collected as memory cards, and the files for
    which the round goes on to the disc-image path. *)
Record inputs : Type :=
  Inputs { mem_cards : list (list Z); disc_files : list string }.

(** [if mc:] on an optional list. *)
Definition truthy {A} (o : option (list A)) : bool :=
  match o with
  | Some (_ :: _) => true
  | _ => false
  end.

Definition sort_input (fs : filesystem) (st : inputs) (cue_file : string)
  : result inputs :=
  sz ← st_size fs cue_file;
  if Z.of_nat sz <=? 262144 then
    mc ← check_memory_card fs cue_file;
    if truthy mc
    then Ok (Inputs (mem_cards st ++ default [] mc) (disc_files st))
    else Ok (Inputs (mem_cards st) (disc_files st ++ [cue_file]))
  else Ok (Inputs (mem_cards st) (disc_files st ++ [cue_file])).

(** The recognized dump sizes with their header lengths and image counts. *)
Definition recognized : list (Z * (nat * nat)) :=
  [(131072, (0%nat, 1%nat)); (131200, (Z.to_nat 128, 1%nat));
   (131136, (Z.to_nat 64, 1%nat)); (262144, (0%nat, 2%nat));
   (134976, (Z.to_nat 3904, 1%nat))].

(** [n] consecutive images read from offset [off]. *)
Fixpoint images (off n : nat) (d : list Z) : list (list Z) :=
  match n with
  | O => []
  | S n' => slice off (off + MC_SIZE) d :: images (off + MC_SIZE) n' d
  end.

(** A dump holding two cards, and a small file that is no card. *)
Definition two_card_dump : list Z := replicate (Z.to_nat 262144) 7.
Definition fs_two_cards : filesystem := {[ "card.mcd"%string := two_card_dump ]}.

(** [range(start, stop, step)] for a positive step. *)
Definition py_range (start stop step : Z) : list Z :=
  map (fun j => start + Z.of_nat j * step)
      (seq 0 (Z.to_nat ((stop - start + step - 1) / step))).

Definition dir_first : list Z :=
  [0x00; 0x00; 0x00; 0x00; 0x00; 0x00; 0x00; 0x00] ++
  [0x00; 0x00; 0x00; 0x00; 0x00; 0x00; 0x00; 0x0e] ++
  [0xa0; 0x00; 0x00; 0x00; 0x00; 0x00; 0x00; 0x00] ++
  [0xff; 0xff; 0x00; 0x00; 0x00; 0x00; 0x00; 0x00].

Definition dir_free : list Z :=
  [0x00; 0x00; 0x00; 0x00; 0x00; 0x00; 0x00; 0x00] ++
  [0x00; 0x00; 0x00; 0x00; 0x00; 0x00; 0x00; 0xa0] ++
  [0xa0; 0x00; 0x00; 0x00; 0x00; 0x00; 0x00; 0x00] ++
  [0xff; 0xff; 0x00; 0x00; 0x00; 0x00; 0x00; 0x00].

Definition dir_last : list Z :=
  [0x00; 0x00; 0x00; 0x00; 0x00; 0x00; 0x00; 0x00] ++
  [0x00; 0x00; 0x00; 0x00; 0x00; 0x00; 0x00; 0xa0] ++
  [0xff; 0xff; 0xff; 0xff; 0x00; 0x00; 0x00; 0x00] ++
  [0xff; 0xff; 0x00; 0x00; 0x00; 0x00; 0x00; 0x00].

Definition broken_sector : list Z :=
  [0xff; 0xff; 0xff; 0xff; 0x00; 0x00; 0x00; 0x00;
   0xff; 0xff; 0x00; 0x00; 0x00; 0x00; 0x00; 0x00].

(** The writes of [create_blank_mc], on the freshly truncated file. *)
Definition blank_writes (f : file) : file :=
  let f := f_seek (Z.to_nat 131071) f in
  let f := f_write (replicate 1 0) f in
  let f := f_seek 0 f in
  let f := f_write [0x4d; 0x43] f in
  let f := f_seek (Z.to_nat 0x70) f in
  let f := f_write dir_first f in
  let f := fold_left (fun f i => f_write dir_free (f_seek (Z.to_nat i) f))
                     (py_range 0xf0 0x780 0x80) f in
  let f := f_seek (Z.to_nat 0x7f0) f in
  let f := f_write dir_last f in
  fold_left (fun f i => f_write broken_sector (f_seek (Z.to_nat i) f))
            (py_range 0x880 0x1190 0x80) f.

(** [create_blank_mc]: [open(mc, "wb")] truncates or creates the file. *)
Definition create_blank_mc (fs : filesystem) (mc : string) : filesystem :=
  <[mc := f_data (blank_writes (File [] 0))]> fs.

(** A sequence of (offset, bytes) writes, each after a [seek]. *)
Definition write_at (f : file) (w : Z * list Z) : file :=
  f_write w.2 (f_seek (Z.to_nat w.1) f).

Definition run_writes (ws : list (Z * list Z)) (f : file) : file :=
  fold_left write_at ws f.

(** The writes of [create_blank_mc] after the first one, as a list. *)
Definition low_writes : list (Z * list Z) :=
  [(0, [0x4d; 0x43]); (0x70, dir_first)] ++
  map (fun i => (i, dir_free)) (py_range 0xf0 0x780 0x80) ++
  [(0x7f0, dir_last)] ++
  map (fun i => (i, broken_sector)) (py_range 0x880 0x1190 0x80).

(** The part of the card that the writes after the first one touch. *)
Definition HEAD : nat := Z.to_nat 0x1190.

(** The byte of a blank card at offset [i], region by region. *)
Definition blank_byte (i : Z) : Z :=
  if i <? 2 then nth (Z.to_nat i) [0x4d; 0x43] 0
  else if (0x70 <=? i) && (i <? 0x90) then nth (Z.to_nat (i - 0x70)) dir_first 0
  else if (0xf0 <=? i) && (i <? 0x790) && ((i - 0xf0) mod 0x80 <? 32)
       then nth (Z.to_nat ((i - 0xf0) mod 0x80)) dir_free 0
  else if (0x7f0 <=? i) && (i <? 0x810) then nth (Z.to_nat (i - 0x7f0)) dir_last 0
  else if (0x880 <=? i) && (i <? 0x1190) && ((i - 0x880) mod 0x80 <? 16)
       then nth (Z.to_nat ((i - 0x880) mod 0x80)) broken_sector 0
  else 0.

End MemoryCard.

(** * Libcrypt patching *)

Module Libcrypt.

Definition WINDOW : nat := Z.to_nat 0x9300.

Definition signature : list Z := [0x25; 0x30; 0x86; 0x00].

Fixpoint starts_with (sub buf : list Z) : bool :=
  match sub, buf with
  | [], _ => true
  | _ :: _, [] => false
  | x :: sub', y :: buf' => (x =? y) && starts_with sub' buf'
  end.

(** [buf.find(sub)]: the first index at which [sub] occurs; [None] is -1. *)
Fixpoint bytes_find (sub buf : list Z) : option nat :=
  if starts_with sub buf then Some 0%nat
  else match buf with
       | [] => None
       | _ :: buf' => S <$> bytes_find sub buf'
       end.

(** [struct.pack_into('<H', buf, pos, v)]: two bytes, low byte first;
    [struct.error] when [v] is not a 16-bit value or the buffer is short. *)
Definition pack_into_H (buf : list Z) (pos : nat) (v : Z) : result (list Z) :=
  if (0 <=? v) && (v <=? 0xFFFF) && bool_decide (pos + 2 <= length buf)%nat
  then Ok (<[S pos := Z.shiftr v 8]> (<[pos := Z.land v 0xFF]> buf))
  else Raise StructError.

(** How the scanning loop ends: the file, and what has been printed. *)
Inductive outcome : Type :=
| Finished (f : file) (out : list string)
| Failed (f : file) (out : list string) (e : exn)
| OutOfFuel.

Definition found_signature : string := "Found libcrypt signature. Patching it".

(** The [while True] loop of the automatic mode; [out] is the standard
    output so far.  A patched window is written back at the offset it was
    read from, which leaves the position at the end of that window. *)
Fixpoint auto_loop (fuel : nat) (magic_word : Z) (f : file) (out : list string)
  : outcome :=
  match fuel with
  | O => OutOfFuel
  | S fuel' =>
      let off := f_tell f in
      let (buf, f) := f_read WINDOW f in
      match buf with
      | [] => Finished f out
      | _ :: _ =>
          match bytes_find signature buf with
          | Some (S p) =>
              let pos := S p in
              let out := out ++ [found_signature] in
              match (buf ← pack_into_H buf pos magic_word;
                     pack_into_H buf (pos + 2) 0x34c6) with
              | Ok buf =>
                  let f := f_seek off f in
                  let f := f_write buf f in
                  auto_loop fuel' magic_word f out
              | Raise e => Failed f out e
              end
          | _ => auto_loop fuel' magic_word f out
          end
      end
  end.

(** What one pass of the loop body does to the window it read. *)
Definition patch_window (magic_word : Z) (buf : list Z) : list Z :=
  match bytes_find signature buf with
  | Some (S p) =>
      <[S (S (S (S p))) := 0x34]> (<[S (S (S p)) := 0xc6]>
        (<[S (S p) := Z.shiftr magic_word 8]> (<[S p := Z.land magic_word 0xFF]> buf)))
  | _ => buf
  end.

(** The image with every window patched on its own. *)
Fixpoint patch_all (fuel : nat) (magic_word : Z) (img : list Z) : list Z :=
  match fuel, img with
  | O, _ => img
  | _, [] => []
  | S fuel', _ :: _ =>
      patch_window magic_word (take WINDOW img) ++
      patch_all fuel' magic_word (drop WINDOW img)
  end.

(** How many windows the loop patches, and so how often it prints. *)
Fixpoint hits (fuel : nat) (img : list Z) : nat :=
  match fuel, img with
  | O, _ => 0%nat
  | _, [] => 0%nat
  | S fuel', _ :: _ =>
      (match bytes_find signature (take WINDOW img) with
       | Some (S _) => 1
       | _ => 0
       end + hits fuel' (drop WINDOW img))%nat
  end.

(** Window number [j] of an image. *)
Definition window (j : nat) (img : list Z) : list Z :=
  take WINDOW (drop (j * WINDOW) img).

(** An image holding the signature twice in its only window. *)
Definition two_signatures : list Z := [0] ++ signature ++ signature.

(** One entry of the [libcrypt] table of [gamedb]; a key that the entry does
    not have is [None]. *)
Record entry : Type := Entry {
  e_credit : option string;
  e_ppf : option string;
  e_ppfzip : option (string * string);
  e_magic_word : option Z
}.

(** The state [apply_ppf] acts on. *)
Record world : Type := World {
  w_fs : filesystem;
  w_temp_files : list string;
  w_stdout : list string
}.

Definition print (line : string) (w : world) : world :=
  World (w_fs w) (w_temp_files w) (w_stdout w ++ [line]).

Definition banner : string := "##################################".

Definition warn_no_ppf (disc_id : string) : string :=
  ("WARNING! No PPF found for " ++ disc_id ++
   " the game might not work unless you have already patched the image file")%string.

Definition warn_fetch_failed : string :=
  "WARNING! PPF to remove libcrypt was not found for %s. Game might not work.".

Section ApplyPpf.

(** From [gamedb], [ppf], [requests] and [zipfile]: the patch table, the PPF
    applier, the HTTP fetch (status and body) and the extraction of one
    archive member into the working directory. *)
Variable libcrypt : gmap string entry.
Variable ApplyPPF : filesystem -> string -> string -> filesystem * option exn.
Variable requests_get : string -> Z * list Z.
Variable zip_extract : list Z -> string -> filesystem -> result filesystem.
Variable verbose : bool.

Definition print_verbose (line : string) (w : world) : world :=
  if verbose then print line w else w.

Definition run_ApplyPPF (img ppf : string) (w : world) : world * option exn :=
  let r := ApplyPPF (w_fs w) img ppf in
  (World r.1 (w_temp_files w) (w_stdout w), r.2).

(** The automatic mode. *)
Definition apply_ppf_auto (img : string) (magic_word : Z) (w : world)
  : option (world * option exn) :=
  let w := print ("Try to automatically generate libcrypt patch for " ++ img) w in
  match open_existing (w_fs w) img with
  | Raise e => Some (w, Some e)
  | Ok f =>
      match auto_loop (S (length (f_data f))) magic_word f (w_stdout w) with
      | Finished f' out =>
          Some (World (<[img := f_data f']> (w_fs w)) (w_temp_files w) out, None)
      | Failed f' out e =>
          Some (World (<[img := f_data f']> (w_fs w)) (w_temp_files w) out, Some e)
      | OutOfFuel => None
      end
  end.

(** The table-driven mode.  [zip_extract] stands for [zipfile.ZipFile(...)]
    and [z.extract(...)] taken together; the verbose line that the code
    prints between the two comes before both here. *)
Definition apply_ppf_table (img disc_id : string) (w : world)
  : world * option exn :=
  match libcrypt !! disc_id with
  | None => (w, Some KeyError)
  | Some e =>
      let w := match e_credit e with Some c => print c w | None => w end in
      match e_ppf e with
      | Some ppf =>
          let w := print ("Patching  " ++ disc_id ++ " to remove libcrypt") w in
          run_ApplyPPF img ppf w
      | None =>
          match e_ppfzip e with
          | None =>
              let w := print banner w in
              let w := print (warn_no_ppf disc_id) w in
              let w := print banner w in
              (w, None)
          | Some (url, member) =>
              let w := print_verbose ("Fetching PPF for " ++ disc_id) w in
              let ret := requests_get url in
              if negb (ret.1 =? 200) then
                let w := print banner w in
                let w := print warn_fetch_failed w in
                let w := print banner w in
                (w, None)
              else
                let w := print_verbose ("Extracting PPF  " ++ member) w in
                match zip_extract ret.2 member (w_fs w) with
                | Raise e => (w, Some e)
                | Ok fs' =>
                    let w := World fs' (w_temp_files w ++ [member]) (w_stdout w) in
                    let w := print ("Patching  " ++ disc_id ++ " to remove libcrypt") w in
                    run_ApplyPPF img member w
                end
          end
      end
  end.

(** [apply_ppf] *)
Definition apply_ppf (img disc_id : string) (magic_word : Z)
    (auto_libcrypt : bool) (w : world) : option (world * option exn) :=
  if auto_libcrypt then apply_ppf_auto img magic_word w
  else Some (apply_ppf_table img disc_id w).

End ApplyPpf.

End Libcrypt.

(** * Descriptions used by the further properties *)

Module More.
Import Toc TocSpec.

(** A descriptor that [get_toc_from_cu2] can read: as [well_formed], without
    the condition that the declared count is the number of track lines. *)
Record readable (lines : list string) (N : Z) (e : Z * Z * Z)
    (msfs : list (Z * Z * Z)) : Prop := Readable {
  rd_ntracks_int :
    Forall (fun l => re_search_start "ntracks" l = true ->
                     exists n, py_int (str_drop 7 l) = Ok n) lines;
  rd_ntracks :
    exists l, last (List.filter (re_search_start "ntracks") lines) = Some l /\
              py_int (str_drop 7 l) = Ok N;
  rd_trk_end :
    exists l, last (List.filter (re_search_start "trk end") lines) = Some l /\
              msf_fields (str_drop 10 l) = Ok e;
  rd_tracks :
    Forall2 (fun l t => msf_fields (str_drop 10 l) = Ok t)
            (List.filter is_track_line lines) msfs
}.

(** A descriptor that declares five tracks and lists one. *)
Definition cu2_five_declared : list string :=
  ["ntracks 5" ++ nl; "data1     00:02:00" ++ nl; "trk end   01:02:03" ++ nl]%string.


(** Whether a file of [n] bytes is one of the recognized card dumps, and the
    images such a dump holds. *)
Definition is_card_size (n : nat) : bool :=
  existsb (fun r => Z.of_nat n =? r.1) MemoryCard.recognized.

Definition cards_of (d : list Z) : list (list Z) :=
  match List.find (fun r => Z.of_nat (length d) =? r.1) MemoryCard.recognized with
  | Some r => MemoryCard.images r.2.1 r.2.2 d
  | None => []
  end.

Definition contents (fs : filesystem) (f : string) : list Z := default [] (fs !! f).

(** [copy_file] reads at most this many bytes at a time. *)
Definition CHUNK : nat := Z.to_nat (1024 * 1024).

(** The loop of [copy_file].  Both handles are open on the file system as
    it is now: the input is read at [ipos] from the current contents of
    [inp], each chunk is written at [opos] in [oup]. *)
Fixpoint copy_loop (fuel : nat) (inp oup : string) (ipos opos : nat)
    (fs : filesystem) : option filesystem :=
  match fuel with
  | O => None
  | S fuel' =>
      let (buf, i) := f_read CHUNK (File (contents fs inp) ipos) in
      match buf with
      | [] => Some fs
      | _ :: _ =>
          let o := f_write buf (File (contents fs oup) opos) in
          copy_loop fuel' inp oup (f_pos i) (f_pos o) (<[oup := f_data o]> fs)
      end
  end.

(** [copy_file]: [open(inp, "rb")] fails on a missing file before
    [open(oup, "wb")] creates or truncates the output. *)
Definition copy_file (inp oup : string) (fs : filesystem)
  : option (filesystem * option exn) :=
  match fs !! inp with
  | None => Some (fs, Some FileNotFoundError)
  | Some d =>
      fs' ← copy_loop (S (length d)) inp oup 0 0 (<[oup := []]> fs);
      Some (fs', None)
  end.

(** [s.split(c)] for a one-character separator. *)
Fixpoint split_on (c : ascii) (s : string) : list string :=
  match s with
  | EmptyString => [EmptyString]
  | String a s' =>
      if Ascii.eqb a c then EmptyString :: split_on c s'
      else match split_on c s' with
           | [] => [String a EmptyString]
           | x :: xs => String a x :: xs
           end
  end.

(** [sep.join(l)] *)
Fixpoint join (sep : string) (l : list string) : string :=
  match l with
  | [] => EmptyString
  | x :: l' =>
      match l' with
      | [] => x
      | _ :: _ => (x ++ sep ++ join sep l')%string
      end
  end.

(** [create_path] *)
Definition create_path (bin f : string) : string :=
  let s := split_on "/" bin in
  if (1 <? length s)%nat
  then (join "/" (removelast s) ++ "/" ++ f)%string
  else f.

(** The characters of a string. *)
Definition chars (s : string) : list ascii := list_ascii_of_string s.

(** [s.lower()], on ASCII text. *)
Definition lower_char (c : ascii) : ascii :=
  let n := nat_of_ascii c in
  if ((65 <=? n)%nat && (n <=? 90)%nat) then ascii_of_nat (n + 32) else c.

Fixpoint lower (s : string) : string :=
  match s with
  | EmptyString => EmptyString
  | String c s' => String (lower_char c) (lower s')
  end.

(** [s[-1]] and [s[1:]]. *)
Fixpoint last_char (s : string) : option ascii :=
  match s with
  | EmptyString => None
  | String c s' =>
      match s' with
      | EmptyString => Some c
      | _ => last_char s'
      end
  end.

Definition str_tail (s : string) : string := str_drop 1 s.

(** What [get_file_name] gives: the name, or the [ValueError] of
    [str.index], or the [IndexError] of indexing an empty string. *)
Inductive file_name : Type :=
| Name (s : string)
| RaiseValueError
| RaiseIndexError.

(** [while line[0] == ' ': line = line[1:]] *)
Fixpoint drop_leading (line : string) : option string :=
  match line with
  | EmptyString => None
  | String c line' => if Ascii.eqb c " " then drop_leading line' else Some line
  end.

(** [while line[-1] == ' ': line = line[:-1]] *)
Fixpoint drop_trailing (fuel : nat) (line : string) : option string :=
  match fuel with
  | O => None
  | S fuel' =>
      match last_char line with
      | None => None
      | Some c =>
          if Ascii.eqb c " " then drop_trailing fuel' (MagicWord.str_init line)
          else Some line
      end
  end.

(** The double quote character. *)
Definition dquote : ascii := "034"%char.

(** [if line[0] == q: line = line[1:-1]] *)
Definition unquote (q : ascii) (line : string) : option string :=
  match line with
  | EmptyString => None
  | String c _ =>
      Some (if Ascii.eqb c q then MagicWord.str_init (str_tail line) else line)
  end.

(** [get_file_name], the helper of [get_imgs_from_bin]. *)
Definition get_file_name (line : string) : file_name :=
  match MagicWord.py_find "file " (lower line) with
  | None => RaiseValueError
  | Some pos =>
      let line := str_drop (pos + 5) line in
      match MagicWord.py_find " binary" (lower line) with
      | None => RaiseValueError
      | Some pos =>
          let line := substring 0 (pos + 1) line in
          match drop_leading line with
          | None => RaiseIndexError
          | Some line =>
              match drop_trailing (S (String.length line)) line with
              | None => RaiseIndexError
              | Some line =>
                  match unquote dquote line with
                  | None => RaiseIndexError
                  | Some line =>
                      match unquote "'" line with
                      | None => RaiseIndexError
                      | Some line => Name line
                      end
                  end
              end
          end
      end
  end.

(** The characters below 256 that [\s] matches in a [str] pattern. *)
Definition is_re_space (c : ascii) : bool :=
  is_space c || (nat_of_ascii c =? 133)%nat || (nat_of_ascii c =? 160)%nat.

Fixpoint skip_spaces (s : string) : string :=
  match s with
  | EmptyString => EmptyString
  | String c s' => if is_re_space c then skip_spaces s' else s
  end.

(** [re.search('^\s*FILE', line)] *)
Definition is_file_line (line : string) : bool :=
  String.prefix "FILE" (skip_spaces line).

(** The loop of [get_imgs_from_bin] over the lines of the cue sheet; it
    stops at the first line on which [get_file_name] raises. *)
Fixpoint imgs_from_lines (cue : string) (lines : list string)
  : file_name + list string :=
  match lines with
  | [] => inr []
  | line :: lines' =>
      if is_file_line line then
        match get_file_name line with
        | Name f =>
            let s := split_on "/" cue in
            let f := if (1 <? length s)%nat
                     then (join "/" (removelast s) ++ "/" ++ f)%string else f in
            match imgs_from_lines cue lines' with
            | inr img_files => inr (f :: img_files)
            | inl e => inl e
            end
        | e => inl e
        end
      else imgs_from_lines cue lines'
  end.

(** [get_imgs_from_bin], on the path and the text of the cue sheet. *)
Definition get_imgs_from_bin (cue text : string) : file_name + list string :=
  imgs_from_lines cue (Toc.readlines text).

(** A cue sheet with one image. *)
Definition cue_one_file : string :=
  ("FILE " ++ String dquote ("disc 1.bin" ++ String dquote (" BINARY" ++ TocSpec.nl))
   ++ "  TRACK 01 MODE2/2352" ++ TocSpec.nl
   ++ "    INDEX 01 00:00:00" ++ TocSpec.nl)%string.

(** [s.upper()] on ASCII text.  Outside ASCII the upper case of a
    character can be two characters or one that a byte does not hold; such
    a text has no image here ([None]). *)
Definition upper_char (c : ascii) : option ascii :=
  let n := nat_of_ascii c in
  if (128 <=? n)%nat then None
  else Some (if ((97 <=? n)%nat && (n <=? 122)%nat) then ascii_of_nat (n - 32) else c).

Fixpoint upper (s : string) : option string :=
  match s with
  | EmptyString => Some EmptyString
  | String c s' =>
      c' ← upper_char c; r ← upper s'; Some (String c' r)
  end.

(** [s.find(sub)] as the integer Python returns. *)
Definition find_Z (sub s : string) : Z :=
  match MagicWord.py_find sub s with
  | Some i => Z.of_nat i
  | None => -1
  end.

(** [s[lo:hi]] with Python's reading of negative and too large bounds. *)
Definition py_bound (len i : Z) : Z :=
  if i <? 0 then Z.max 0 (len + i) else Z.min i len.

Definition py_slice (lo hi : Z) (s : string) : string :=
  let len := Z.of_nat (String.length s) in
  let lo := py_bound len lo in
  let hi := py_bound len hi in
  substring (Z.to_nat lo) (Z.to_nat (hi - lo)) s.

(** The end of [get_gameid_from_iso]: the game id from the text of
    [SYSTEM.CNF]; [None] when [upper] has no image. *)
Definition game_id_of (buf : string) : option (result string) :=
  let idx := find_Z "cdrom:" buf in
  if idx <? 0 then Some (Raise (Exception "Could not read system.cnf"))
  else
    let buf := py_slice idx (idx + 50) buf in
    let idx := find_Z ";1" buf in
    let buf := py_slice (idx - 11) idx buf in
    game_id ← upper buf;
    Some (Ok (py_slice 0 4 game_id ++ py_slice 5 8 game_id
              ++ py_slice 9 11 game_id)%string).

Section GameId.

(** Which of the two ISO libraries could be imported, and what each reads
    from the image: [pycdlib] the first 1024 bytes of [/SYSTEM.CNF;1] as
    text, [iso9660] the first 128 characters of [system.cnf], or [None]
    when [stat] finds no such file. *)
Variable have_pycdlib have_iso9660 : bool.
Variable pycdlib_read : string -> result string.
Variable iso9660_read : string -> result (option string).

(** The text that reaches the end of [get_gameid_from_iso]: what
    [iso9660] reads replaces what [pycdlib] has read. *)
Definition system_cnf (path : string) : result (option string) :=
  buf ← (if have_pycdlib then b ← pycdlib_read path; Ok (Some b) else Ok None);
  if have_iso9660
  then st ← iso9660_read path;
       match st with
       | None => Raise (Exception "Could not open system.cnf")
       | Some b => Ok (Some b)
       end
  else Ok buf.

Definition get_gameid_from_iso (path : string) : option (result string) :=
  if negb have_pycdlib && negb have_iso9660
  then Some (Raise (Exception "Can not find either pycdlib or pycdio."))
  else
    match system_cnf path with
    | Raise e => Some (Raise e)
    | Ok (Some buf) => game_id_of buf
    | Ok None => Some (Raise (Exception "Can not find either pycdlib or pycdio."))
    end.

End GameId.







Section PatchDiscs.

Variable libcrypt : gmap string Libcrypt.entry.
Variable ApplyPPF : filesystem -> string -> string -> filesystem * option exn.
Variable requests_get : string -> Z * list Z.
Variable zip_extract : list Z -> string -> filesystem -> result filesystem.
Variable verbose : bool.

(** Text files: what reading a file in text mode gives, and the bytes that
    writing a text leaves. *)
Variable decode : list Z -> string.
Variable encode : string -> list Z.


End PatchDiscs.

(** ASCII text as bytes, and back. *)
Definition ascii_encode (s : string) : list Z :=
  map (fun c => Z.of_nat (nat_of_ascii c)) (list_ascii_of_string s).



(** Carriage return and line feed, [chr(13) + chr(10)]. *)
Definition crlf : string := String "013"%char (String "010"%char EmptyString).

Section Retroarch.

Variable verbose : bool.

(** [bytes(s, encoding='utf-8')] *)
Variable encode : string -> list Z.

(** The directories are not part of the file map; they are kept abstract.
    [os_mkdir] is [os.mkdir], giving the directories afterwards or what it
    raises; [open_wb ds p] is what [open(p, 'wb')] raises with the
    directories [ds], [None] when the file can be opened. *)
Variable dirs : Type.
Variable os_mkdir : string -> dirs -> result dirs.
Variable open_wb : dirs -> string -> option exn.

(** [try: os.mkdir(dest) except: True] *)
Definition after_mkdir (dest : string) (ds : dirs) : dirs :=
  match os_mkdir dest ds with
  | Ok ds' => ds'
  | Raise _ => ds
  end.

(** [game_title + '-%d' % i + '.img'] *)
Definition img_name (game_title : string) (i : nat) : string :=
  (game_title ++ "-" ++ pretty i ++ ".img")%string.

(** [copy_file] where the output may fail to open: the input is opened
    first. *)
Definition copy_into (ds : dirs) (inp oup : string) (fs : filesystem)
  : option (filesystem * option exn) :=
  match fs !! inp, open_wb ds oup with
  | Some _, Some e => Some (fs, Some e)
  | _, _ => copy_file inp oup fs
  end.

(** The loop of [create_retroarch_bin] from index [i] on; [md] is what has
    been written to the playlist so far. *)
Fixpoint install_from (ds : dirs) (dest game_title : string)
    (img_files : list string) (i : nat) (md : list Z) (w : Libcrypt.world)
  : option (list Z * Libcrypt.world * option exn) :=
  match img_files with
  | [] => Some (md, w, None)
  | img :: img_files' =>
      let g := img_name game_title i in
      let md := md ++ encode (g ++ crlf) in
      let f := (dest ++ "/" ++ g)%string in
      let w := if verbose then Libcrypt.print ("Installing " ++ f) w else w in
      match copy_into ds img f (Libcrypt.w_fs w) with
      | None => None
      | Some (fs, Some e) =>
          Some (md, Libcrypt.World fs (Libcrypt.w_temp_files w) (Libcrypt.w_stdout w),
                Some e)
      | Some (fs, None) =>
          install_from ds dest game_title img_files' (S i) md
            (Libcrypt.World fs (Libcrypt.w_temp_files w) (Libcrypt.w_stdout w))
      end
  end.

(** [create_retroarch_bin].  A failing [os.mkdir] is ignored; the playlist
    is then opened, which raises when it cannot be.  The playlist is
    truncated when it is opened; its lines stay in the writer's buffer and
    reach the file when it is closed, also when a copy raises. *)
Definition create_retroarch_bin (dest game_title : string)
    (cue_files img_files : list string) (ds : dirs) (w : Libcrypt.world)
  : option (dirs * Libcrypt.world * option exn) :=
  let ds := after_mkdir dest ds in
  let m3u := (dest ++ "/" ++ game_title ++ ".m3u")%string in
  match open_wb ds m3u with
  | Some e => Some (ds, w, Some e)
  | None =>
      let w := Libcrypt.World (<[m3u := []]> (Libcrypt.w_fs w))
                              (Libcrypt.w_temp_files w) (Libcrypt.w_stdout w) in
      match install_from ds dest game_title img_files 0 [] w with
      | None => None
      | Some (md, w, e) =>
          Some (ds,
                Libcrypt.World (<[m3u := md]> (Libcrypt.w_fs w))
                               (Libcrypt.w_temp_files w) (Libcrypt.w_stdout w), e)
      end
  end.

End Retroarch.

(** The playlist for [n] images from index [i] on. *)
Fixpoint playlist (encode : string -> list Z) (game_title : string) (i n : nat)
  : list Z :=
  match n with
  | O => []
  | S n' =>
      encode (img_name game_title i ++ crlf)%string ++
      playlist encode game_title (S i) n'
  end.

(** Two images to install. *)
Definition fs_two_images : filesystem :=
  {[ "a.bin"%string := [1; 2]; "b.bin"%string := [3] ]}.

(** The quotient [p / q] of two positive integers rounded to the nearest
    integer, ties to the even one. *)
Definition round_half_even (p q : Z) : Z :=
  let k := p / q in
  let r := p mod q in
  if 2 * r <? q then k
  else if q <? 2 * r then k + 1
  else if Z.even k then k else k + 1.

(** [int(n / 10)] for an [int] [n >= 0].  [n / 10] is the double nearest to
    the quotient, ties to even: an integer of 53 bits scaled by the power of
    two that the binary exponent [e] of the quotient gives; [int()] then
    drops the fraction.  [None] is the [OverflowError] of a quotient too
    large for a double. *)
Definition int_div10 (n : Z) : option Z :=
  if n <? 10 then Some 0
  else
    let e := Z.log2 (n / 10) in
    if e <=? 52 then
      let m := round_half_even (n * 2 ^ (52 - e)) 10 in
      Some (m / 2 ^ (52 - e))
    else
      let m := round_half_even n (10 * 2 ^ (e - 52)) in
      let v := m * 2 ^ (e - 52) in
      if 2 ^ 1024 <=? v then None else Some v.

(** [bcd] with the division as Python carries it out; a negative quotient
    is the negated quotient of the absolute value, and [int()] truncates
    towards zero. *)
Definition py_bcd (i : Z) : option Z :=
  q ← (if 0 <=? i then int_div10 i else Z.opp <$> int_div10 (- i));
  Some (i mod 10 + 16 * (q mod 10)).

End More.

(** * Theorems *)

Section BcdFacts.
Import Toc.

Lemma bcd_range (i : Z) : 0 <= bcd i < 256.
Proof.
  unfold bcd.
  pose proof (Z.mod_pos_bound i 10 ltac:(lia)).
  pose proof (Z.mod_pos_bound (Z.quot i 10) 10 ltac:(lia)).
  lia.
Qed.

Lemma bcd_digits (i : Z) :
  0 <= i <= 99 -> bcd i = i mod 10 + 16 * (i / 10).
Proof.
  intros Hi. unfold bcd.
  rewrite Z.quot_div_nonneg by lia.
  rewrite (Z.mod_small (i / 10) 10); [done|].
  split; [apply Z.div_pos; lia|apply Z.div_lt_upper_bound; lia].
Qed.

(** Both equations of the round-trip property, checked on all of [0,99]. *)
Lemma bcd_table_checked :
  forallb (fun n => let i := Z.of_nat n in
             (bcd i =? Z.lor (i mod 10) (Z.shiftl (i / 10 mod 10) 4)) &&
             (decode_bcd (bcd i) =? i))
          (seq 0 100) = true.
Proof. vm_compute. reflexivity. Qed.

End BcdFacts.

(** C2.  For every integer [i] in [0,99], [bcd i] is one byte, it equals
    [(i mod 10) | ((i div 10 mod 10) << 4)], and decoding it with
    [decode_bcd b = (b & 0xF) + 10 * (b >> 4)] gives [i] back. *)
Theorem C2_bcd_roundtrip (i : Z) :
  0 <= i <= 99 ->
  0 <= Toc.bcd i < 256 /\
  Toc.bcd i = Z.lor (i mod 10) (Z.shiftl (i / 10 mod 10) 4) /\
  Toc.decode_bcd (Toc.bcd i) = i.
Proof.
  intros Hi. split; [apply bcd_range|].
  pose proof bcd_table_checked as Hc.
  rewrite forallb_forall in Hc.
  specialize (Hc (Z.to_nat i)).
  rewrite Z2Nat.id in Hc by lia.
  apply andb_true_iff in Hc as [H1 H2].
  - by apply Z.eqb_eq in H1, H2.
  - apply in_seq. lia.
Qed.

Lemma C2_bcd_roundtrip_witness :
  0 <= 42 <= 99 /\
  0 <= Toc.bcd 42 < 256 /\
  Toc.bcd 42 = Z.lor (42 mod 10) (Z.shiftl (42 / 10 mod 10) 4) /\
  Toc.decode_bcd (Toc.bcd 42) = 42.
Proof. split; [lia|apply (C2_bcd_roundtrip 42); lia]. Defined.

(** ** The TOC synthesizer *)

Section TocFacts.
Import Toc TocSpec.

Lemma bytearray_set_ok (b : list Z) (i : nat) (v : Z) :
  (i < length b)%nat -> 0 <= v < 256 -> bytearray_set b i v = Ok (<[i := v]> b).
Proof.
  intros Hi Hv. unfold bytearray_set.
  rewrite bool_decide_eq_true_2 by done.
  destruct (Z.leb_spec 0 v); [|lia]. destruct (Z.ltb_spec v 256); [done|lia].
Qed.

Lemma bytearray_set_bcd (b : list Z) (i : nat) (v : Z) :
  (i < length b)%nat -> bytearray_set b i (bcd v) = Ok (<[i := bcd v]> b).
Proof. intros Hi. apply bytearray_set_ok; [done|apply bcd_range]. Qed.

Lemma msf_fields_inv (msf : string) (t : Z * Z * Z) :
  msf_fields msf = Ok t ->
  py_int (str_slice 0 2 msf) = Ok t.1.1 /\
  py_int (str_slice 3 5 msf) = Ok t.1.2 /\
  py_int (str_slice 6 8 msf) = Ok t.2.
Proof.
  unfold msf_fields.
  destruct (py_int (str_slice 0 2 msf)) as [m|]; [|discriminate].
  destruct (py_int (str_slice 3 5 msf)) as [s|]; [|discriminate].
  destruct (py_int (str_slice 6 8 msf)) as [f|]; [|discriminate].
  cbn. intros [= <-]. done.
Qed.

Lemma for_each_cons {A S} (body : S -> A -> result S) st x l :
  for_each body st (x :: l) = body st x ≫= fun st' => for_each body st' l.
Proof. reflexivity. Qed.

Lemma bind_ok {A B} (a : A) (k : A -> result B) : Ok a ≫= k = k a.
Proof. reflexivity. Qed.

Lemma scan_line_ntracks st line n :
  re_search_start "ntracks" line = true -> py_int (str_drop 7 line) = Ok n ->
  scan_line st line =
    Ok (Some n, if re_search_start "trk end" line
                then Some (str_drop 10 line) else st.2).
Proof. intros Hn Hint. unfold scan_line. by rewrite Hn, Hint. Qed.

Lemma scan_line_other st line :
  re_search_start "ntracks" line = false ->
  scan_line st line =
    Ok (st.1, if re_search_start "trk end" line
              then Some (str_drop 10 line) else st.2).
Proof. intros Hn. unfold scan_line. by rewrite Hn. Qed.

Lemma scan_spec (lines : list string) (st : option Z * option string) :
  Forall (fun l => re_search_start "ntracks" l = true ->
                   exists n, py_int (str_drop 7 l) = Ok n) lines ->
  exists nt,
    for_each scan_line st lines =
      Ok (nt, match last (List.filter (re_search_start "trk end") lines) with
              | Some l => Some (str_drop 10 l)
              | None => st.2
              end) /\
    match last (List.filter (re_search_start "ntracks") lines) with
    | Some l => exists n, py_int (str_drop 7 l) = Ok n /\ nt = Some n
    | None => nt = st.1
    end.
Proof.
  revert st. induction lines as [|line lines IH]; intros st Hall.
  { exists st.1. destruct st; done. }
  apply Forall_cons in Hall as [Hline Hall].
  rewrite for_each_cons. simpl List.filter.
  destruct (re_search_start "ntracks" line) eqn:Hn.
  - destruct (Hline eq_refl) as [n Hint].
    rewrite (scan_line_ntracks st line n Hn Hint), bind_ok.
    edestruct (IH (Some n, if re_search_start "trk end" line
                           then Some (str_drop 10 line) else st.2) Hall)
      as [nt [Hrun Hnt]].
    exists nt. split.
    + rewrite Hrun. f_equal. f_equal. cbn [fst snd].
      destruct (re_search_start "trk end" line);
        [rewrite last_cons|]; destruct (last _); reflexivity.
    + rewrite last_cons.
      destruct (last (List.filter (re_search_start "ntracks") lines));
        [exact Hnt|]. cbn [fst snd] in Hnt. eauto.
  - rewrite (scan_line_other st line Hn), bind_ok.
    edestruct (IH (st.1, if re_search_start "trk end" line
                         then Some (str_drop 10 line) else st.2) Hall)
      as [nt [Hrun Hnt]].
    exists nt. split; [|done].
    rewrite Hrun. f_equal. f_equal. cbn [fst snd].
    destruct (re_search_start "trk end" line);
      [rewrite last_cons|]; destruct (last _); reflexivity.
Qed.
Lemma good_buf_record k t : good_buf (track_record k t).
Proof. unfold good_buf, track_record. eauto 10. Qed.

Lemma track_step_skip st line :
  is_track_line line = false -> track_step st line = Ok st.
Proof.
  unfold is_track_line, track_step. intros H.
  apply orb_false_iff in H as [-> ->]. reflexivity.
Qed.

Lemma track_step_track st line t :
  good_buf (ts_buf st) -> is_track_line line = true ->
  msf_fields (str_drop 10 line) = Ok t ->
  track_step st line =
    Ok (TrackState (ts_track st + 1)
                   (ts_toc st ++ track_record (ts_track st) t)
                   (track_record (ts_track st) t)).
Proof.
  intros (b0 & b2 & b7 & b8 & b9 & Hbuf) Hline Hmsf.
  apply msf_fields_inv in Hmsf as (Hm & Hs & Hf).
  unfold track_step.
  replace (negb (re_search_start "data" line) &&
           negb (re_search_start "track" line)) with false.
  2:{ unfold is_track_line in Hline.
      destruct (re_search_start "data" line), (re_search_start "track" line);
        done. }
  rewrite Hbuf, Hm, Hs, Hf.
  rewrite bytearray_set_ok;
    [|simpl; lia|destruct (ts_track st =? 1); lia].
  rewrite bind_ok.
  repeat (rewrite bytearray_set_bcd by (rewrite ?length_insert; simpl; lia);
          rewrite !bind_ok).
  reflexivity.
Qed.

Lemma track_loop (lines : list string) (st : track_state)
    (msfs : list (Z * Z * Z)) :
  good_buf (ts_buf st) ->
  Forall2 (fun l t => msf_fields (str_drop 10 l) = Ok t)
          (List.filter is_track_line lines) msfs ->
  exists buf,
    for_each track_step st lines =
      Ok (TrackState (ts_track st + Z.of_nat (length msfs))
                     (ts_toc st ++ records (ts_track st) msfs) buf).
Proof.
  revert st msfs. induction lines as [|line lines IH]; intros st msfs Hbuf Hall.
  { apply Forall2_nil_inv_l in Hall as ->. exists (ts_buf st).
    destruct st; cbn. by rewrite Z.add_0_r, app_nil_r. }
  rewrite for_each_cons. simpl List.filter in Hall.
  destruct (is_track_line line) eqn:Hline.
  - apply Forall2_cons_inv_l in Hall as (t & msfs' & Ht & Hall & ->).
    rewrite (track_step_track st line t Hbuf Hline Ht), bind_ok.
    destruct (IH (TrackState (ts_track st + 1)
                   (ts_toc st ++ track_record (ts_track st) t)
                   (track_record (ts_track st) t))
                 msfs' (good_buf_record _ _) Hall) as [buf Hrun].
    exists buf. rewrite Hrun. cbn [ts_track ts_toc records length].
    f_equal. f_equal; [lia|by rewrite <- app_assoc].
  - rewrite (track_step_skip st line Hline), bind_ok. by apply IH.
Qed.






End TocFacts.

(** ** Magic-word derivation *)

Section MagicWordFacts.
Import MagicWord.








End MagicWordFacts.

(** ** Memory cards *)

Ltac decide_size :=
  repeat match goal with
         | |- context [?a =? ?b] => destruct (Z.eqb_spec a b); [try lia|try lia]
         end.

Section MemoryCardFacts.
Import MemoryCard.

Lemma st_size_found (fs : filesystem) (f : string) (d : list Z) :
  fs !! f = Some d -> st_size fs f = Ok (length d).
Proof. intros H. unfold st_size. by rewrite H. Qed.

Lemma open_existing_found (fs : filesystem) (f : string) (d : list Z) :
  fs !! f = Some d -> open_existing fs f = Ok (File d 0).
Proof. intros H. unfold open_existing. by rewrite H. Qed.

(** One [seek] followed by one [read] of a whole image. *)
Lemma read_image (d : list Z) (off p0 : nat) :
  (off + MC_SIZE <= length d)%nat ->
  f_read MC_SIZE (f_seek off (File d p0)) =
    (slice off (off + MC_SIZE) d, File d (off + MC_SIZE)).
Proof.
  intros Hlen. unfold f_read, f_seek, slice. cbv beta iota delta [f_data f_pos].
  replace (off + MC_SIZE - off)%nat with MC_SIZE by lia.
  rewrite length_take, length_drop. do 2 f_equal. lia.
Qed.

Lemma length_slice {A} (lo hi : nat) (l : list A) :
  (lo <= hi <= length l)%nat -> length (slice lo hi l) = (hi - lo)%nat.
Proof. intros H. unfold slice. rewrite length_take, length_drop. lia. Qed.

Lemma check_memory_card_cases (fs : filesystem) (f : string) (d : list Z) :
  fs !! f = Some d ->
  check_memory_card fs f =
    Ok (if Z.of_nat (length d) =? 131072 then Some (images 0 1 d)
        else if Z.of_nat (length d) =? 131200 then Some (images (Z.to_nat 128) 1 d)
        else if Z.of_nat (length d) =? 131136 then Some (images (Z.to_nat 64) 1 d)
        else if Z.of_nat (length d) =? 262144 then Some (images 0 2 d)
        else if Z.of_nat (length d) =? 134976 then Some (images (Z.to_nat 3904) 1 d)
        else None).
Proof.
  intros Hf. unfold check_memory_card.
  rewrite (st_size_found _ _ _ Hf), (open_existing_found _ _ _ Hf), !bind_ok.
  cbv beta iota delta [images].
  destruct (Z.eqb_spec (Z.of_nat (length d)) 131072).
  { change (File d 0) with (f_seek 0 (File d 0)).
    rewrite (read_image d 0 0) by (unfold MC_SIZE; lia). reflexivity. }
  destruct (Z.eqb_spec (Z.of_nat (length d)) 131200).
  { rewrite (read_image d _ 0) by (unfold MC_SIZE; lia). reflexivity. }
  destruct (Z.eqb_spec (Z.of_nat (length d)) 131136).
  { rewrite (read_image d _ 0) by (unfold MC_SIZE; lia). reflexivity. }
  destruct (Z.eqb_spec (Z.of_nat (length d)) 262144).
  { change (File d 0) with (f_seek 0 (File d 0)).
    rewrite (read_image d 0 0) by (unfold MC_SIZE; lia).
    change (File d (0 + MC_SIZE)) with (f_seek (0 + MC_SIZE) (File d 0)).
    rewrite (read_image d _ 0) by (unfold MC_SIZE; lia). reflexivity. }
  destruct (Z.eqb_spec (Z.of_nat (length d)) 134976).
  { rewrite (read_image d _ 0) by (unfold MC_SIZE; lia). reflexivity. }
  reflexivity.
Qed.

End MemoryCardFacts.

Section BlankCardFacts.
Import MemoryCard.

Lemma write_at_low (w : Z * list Z) (pre suf : list Z) (p0 : nat) :
  (Z.to_nat w.1 + length w.2 <= length pre)%nat ->
  write_at (File (pre ++ suf) p0) w =
    File (f_data (write_at (File pre 0) w) ++ suf) (Z.to_nat w.1 + length w.2) /\
  length (f_data (write_at (File pre 0) w)) = length pre.
Proof.
  intros Hlen. unfold write_at, f_write, f_seek. cbn [f_data f_pos].
  set (pos := Z.to_nat w.1) in *.
  rewrite !(take_app_le _ _ pos) by (rewrite ?length_app; lia).
  rewrite (drop_app_le pre suf) by lia. split.
  - f_equal. by rewrite <- !app_assoc.
  - rewrite !length_app, length_take, length_drop. lia.
Qed.

Lemma run_writes_pos (ws : list (Z * list Z)) (d : list Z) (p p' : nat) :
  f_data (run_writes ws (File d p)) = f_data (run_writes ws (File d p')).
Proof. destruct ws; reflexivity. Qed.

Lemma run_writes_low (ws : list (Z * list Z)) (pre suf : list Z) (p0 : nat) :
  Forall (fun w => (Z.to_nat w.1 + length w.2 <= length pre)%nat) ws ->
  f_data (run_writes ws (File (pre ++ suf) p0)) =
    f_data (run_writes ws (File pre 0)) ++ suf /\
  length (f_data (run_writes ws (File pre 0))) = length pre.
Proof.
  revert pre p0. induction ws as [|w ws IH]; intros pre p0 Hall; [done|].
  apply Forall_cons in Hall as [Hw Hall].
  destruct (write_at_low w pre suf p0 Hw) as [Hstep Hlen].
  unfold run_writes in *. cbn [fold_left]. rewrite Hstep.
  destruct (IH (f_data (write_at (File pre 0) w)) (Z.to_nat w.1 + length w.2)%nat)
    as [Hrun Hlen'].
  { by rewrite Hlen. }
  assert (E : f_data (fold_left write_at ws (write_at (File pre 0) w)) =
              f_data (fold_left write_at ws
                        (File (f_data (write_at (File pre 0) w)) 0))).
  { destruct (write_at (File pre 0) w) as [d q]. apply (run_writes_pos ws d q 0). }
  rewrite E, Hrun, Hlen', Hlen. done.
Qed.

Lemma fold_writes (buf : list Z) (offs : list Z) (f : file) :
  fold_left (fun f i => f_write buf (f_seek (Z.to_nat i) f)) offs f =
  run_writes (map (fun i => (i, buf)) offs) f.
Proof.
  revert f. induction offs as [|i offs IH]; intros f; [done|].
  cbn [fold_left map]. rewrite IH. reflexivity.
Qed.

Lemma blank_writes_as_list (f : file) :
  blank_writes f =
    run_writes low_writes (write_at f (131071, replicate 1 0)).
Proof.
  unfold blank_writes, low_writes. rewrite !fold_writes.
  unfold run_writes. rewrite !fold_left_app. reflexivity.
Qed.

Lemma first_write :
  write_at (File [] 0) (131071, replicate 1 0) =
    File (replicate HEAD 0 ++ replicate (Z.to_nat (131072 - 0x1190)) 0)
         (Z.to_nat 131071 + 1).
Proof.
  assert (Hsum : (Z.to_nat 131071 + 1 = HEAD + Z.to_nat (131072 - 0x1190))%nat)
    by (unfold HEAD; lia).
  unfold write_at, f_write, f_seek. cbn [f_data f_pos fst snd].
  generalize dependent (Z.to_nat 131071). intros n.
  generalize (Z.to_nat (131072 - 0x1190)). generalize HEAD. intros L R Hsum.
  change (length (replicate 1 0)) with 1%nat.
  rewrite app_nil_l, Nat.sub_0_r, drop_nil, app_nil_r.
  rewrite take_ge by (rewrite length_replicate; lia).
  rewrite <- !replicate_add, Hsum. reflexivity.
Qed.

Lemma low_writes_fit :
  Forall (fun w => (Z.to_nat w.1 + length w.2 <= length (replicate HEAD 0))%nat)
         low_writes.
Proof.
  assert (H : forallb (fun w => (Z.to_nat w.1 + length w.2 <=? HEAD)%nat)
                      low_writes = true) by (vm_compute; reflexivity).
  rewrite forallb_forall in H. rewrite length_replicate.
  apply List.Forall_forall. intros w Hin. apply Nat.leb_le, H, Hin.
Qed.

Lemma head_bytes :
  f_data (run_writes low_writes (File (replicate HEAD 0) 0)) =
    map (fun n => blank_byte (Z.of_nat n)) (seq 0 HEAD).
Proof. vm_compute. reflexivity. Qed.

(** The blank image: the head, byte by byte, then zeros up to 131072. *)
Lemma blank_image_eq :
  f_data (blank_writes (File [] 0)) =
    map (fun n => blank_byte (Z.of_nat n)) (seq 0 HEAD) ++
    replicate (Z.to_nat (131072 - 0x1190)) 0.
Proof.
  rewrite blank_writes_as_list, first_write.
  destruct (run_writes_low low_writes (replicate HEAD 0)
              (replicate (Z.to_nat (131072 - 0x1190)) 0)
              (Z.to_nat 131071 + 1) low_writes_fit) as [H _].
  rewrite H, head_bytes. reflexivity.
Qed.

Lemma blank_byte_tail (i : Z) : 0x1190 <= i -> blank_byte i = 0.
Proof.
  intros Hi. unfold blank_byte.
  repeat match goal with
         | |- context [?a <? ?b] =>
             destruct (Z.ltb_spec a b); try lia; cbn [andb]
         | |- context [?a <=? ?b] =>
             destruct (Z.leb_spec a b); try lia; cbn [andb]
         end; reflexivity.
Qed.

Lemma blank_image_lookup (i : nat) :
  (i < Z.to_nat 131072)%nat ->
  f_data (blank_writes (File [] 0)) !! i = Some (blank_byte (Z.of_nat i)).
Proof.
  intros Hi. rewrite blank_image_eq.
  destruct (Nat.lt_ge_cases i HEAD) as [Hlt|Hge].
  - rewrite lookup_app_l by (rewrite length_map, length_seq; exact Hlt).
    rewrite list_lookup_fmap, lookup_seq_lt by exact Hlt. reflexivity.
  - rewrite lookup_app_r by (rewrite length_map, length_seq; exact Hge).
    rewrite length_map, length_seq.
    rewrite lookup_replicate_2 by (unfold HEAD in *; lia).
    rewrite blank_byte_tail; [done|unfold HEAD in *; lia].
Qed.

Lemma blank_image_length :
  length (f_data (blank_writes (File [] 0))) = Z.to_nat 131072.
Proof.
  rewrite blank_image_eq, length_app, length_map, length_seq, length_replicate.
  unfold HEAD. lia.
Qed.

(** Slices inside the head are read off [blank_byte] directly. *)
Lemma blank_image_slice (lo hi : nat) :
  (lo <= hi <= HEAD)%nat ->
  slice lo hi (f_data (blank_writes (File [] 0))) =
  map (fun n => blank_byte (Z.of_nat n)) (seq lo (hi - lo)).
Proof.
  intros Hhi. rewrite blank_image_eq. unfold slice.
  rewrite drop_app_le by (rewrite length_map, length_seq; lia).
  rewrite take_app_le
    by (rewrite length_drop, length_map, length_seq; lia).
  rewrite <- fmap_drop, <- fmap_take, drop_seq, take_seq.
  rewrite Nat.min_l by lia. reflexivity.
Qed.

End BlankCardFacts.

(** ** Libcrypt patching *)

Section LibcryptFacts.
Import Libcrypt.

Lemma WINDOW_pos : (0 < WINDOW)%nat.
Proof. unfold WINDOW. lia. Qed.

#[local] Opaque WINDOW.

Lemma starts_with_spec (sub buf : list Z) :
  starts_with sub buf = true <-> take (length sub) buf = sub.
Proof.
  revert buf. induction sub as [|x sub IH]; intros buf.
  - by destruct buf.
  - destruct buf as [|y buf]; cbn [starts_with length take].
    + split; discriminate.
    + rewrite andb_true_iff, Z.eqb_eq, IH. split.
      * by intros [-> ->].
      * by intros [= -> ->].
Qed.

(** [find] returns the first occurrence, and the match fits in the buffer. *)
Lemma bytes_find_Some (sub buf : list Z) (i : nat) :
  bytes_find sub buf = Some i ->
  take (length sub) (drop i buf) = sub /\
  (i + length sub <= length buf)%nat /\
  (forall j, (j < i)%nat -> take (length sub) (drop j buf) <> sub).
Proof.
  revert i. induction buf as [|y buf IH]; intros i; cbn [bytes_find].
  - destruct (starts_with sub []) eqn:Hs; [|discriminate].
    intros [= <-]. apply starts_with_spec in Hs. rewrite take_nil in Hs.
    subst sub. rewrite drop_0. split; [done|]. split; [cbn; lia|lia].
  - destruct (starts_with sub (y :: buf)) eqn:Hs.
    + intros [= <-]. apply starts_with_spec in Hs. rewrite drop_0.
      split; [done|]. split; [|lia].
      rewrite <- Hs at 1. rewrite length_take. lia.
    + destruct (bytes_find sub buf) as [i'|] eqn:Hf; [|discriminate].
      intros [= <-]. destruct (IH i' eq_refl) as (Ht & Hl & Hfirst).
      split; [done|]. split; [cbn [length]; lia|].
      intros [|j] Hj.
      * rewrite drop_0. intros Heq. apply starts_with_spec in Heq. congruence.
      * apply Hfirst. lia.
Qed.

Lemma bytes_find_None (sub buf : list Z) (j : nat) :
  bytes_find sub buf = None -> take (length sub) (drop j buf) <> sub.
Proof.
  revert j. induction buf as [|y buf IH]; intros j; cbn [bytes_find].
  - destruct (starts_with sub []) eqn:Hs; [discriminate|]. intros _.
    rewrite drop_nil. intros Heq. apply starts_with_spec in Heq. congruence.
  - destruct (starts_with sub (y :: buf)) eqn:Hs; [discriminate|].
    destruct (bytes_find sub buf) eqn:Hf; [discriminate|]. intros _.
    destruct j as [|j].
    + rewrite drop_0. intros Heq. apply starts_with_spec in Heq. congruence.
    + by apply IH.
Qed.

(** Four consecutive updates replace four consecutive bytes. *)
Lemma insert_four (buf : list Z) (i : nat) (a b c d : Z) :
  (i + 4 <= length buf)%nat ->
  <[S (S (S i)) := d]> (<[S (S i) := c]> (<[S i := b]> (<[i := a]> buf))) =
  take i buf ++ [a; b; c; d] ++ drop (i + 4) buf.
Proof.
  revert buf. induction i as [|i IH]; intros buf Hlen.
  - destruct buf as [|x0 [|x1 [|x2 [|x3 rest]]]]; cbn in Hlen; try lia.
    reflexivity.
  - destruct buf as [|x buf]; cbn in Hlen; [lia|].
    cbn [take drop Nat.add app]. rewrite <- IH by lia. reflexivity.
Qed.

Lemma length_patch_window (mw : Z) (buf : list Z) :
  length (patch_window mw buf) = length buf.
Proof.
  unfold patch_window. destruct (bytes_find signature buf) as [[|p]|]; [done| |done].
  by rewrite !length_insert.
Qed.

Lemma patch_window_nil (mw : Z) : patch_window mw [] = [].
Proof. reflexivity. Qed.

Lemma pack_into_H_ok (buf : list Z) (pos : nat) (v : Z) :
  0 <= v <= 0xFFFF -> (pos + 2 <= length buf)%nat ->
  pack_into_H buf pos v =
    Ok (<[S pos := Z.shiftr v 8]> (<[pos := Z.land v 0xFF]> buf)).
Proof.
  intros Hv Hlen. unfold pack_into_H.
  destruct (Z.leb_spec 0 v); [|lia]. destruct (Z.leb_spec v 0xFFFF); [|lia].
  by rewrite bool_decide_eq_true_2 by lia.
Qed.

(** The two [pack_into] calls of the loop body. *)
Lemma pack_both (mw : Z) (buf : list Z) (p : nat) :
  0 <= mw <= 0xFFFF ->
  bytes_find signature buf = Some (S p) ->
  (buf' ← pack_into_H buf (S p) mw; pack_into_H buf' (S p + 2) 0x34c6) =
    Ok (patch_window mw buf).
Proof.
  intros Hmw Hfind. unfold patch_window. rewrite Hfind.
  destruct (bytes_find_Some _ _ _ Hfind) as (_ & Hlen & _).
  change (length signature) with 4%nat in Hlen.
  rewrite (pack_into_H_ok buf (S p) mw) by lia. rewrite bind_ok.
  rewrite pack_into_H_ok by (rewrite ?length_insert; lia).
  replace (S p + 2)%nat with (S (S (S p))) by lia. reflexivity.
Qed.

Lemma drop_window (data : list Z) (pos : nat) :
  drop (pos + length (take WINDOW (drop pos data))) data =
  drop WINDOW (drop pos data).
Proof.
  rewrite drop_drop, length_take, length_drop.
  destruct (Nat.le_gt_cases WINDOW (length data - pos)).
  - by rewrite Nat.min_l by lia.
  - rewrite Nat.min_r by lia. rewrite !drop_ge; [done|lia|lia].
Qed.

Lemma take_window (data : list Z) (pos : nat) :
  (pos <= length data)%nat ->
  take (pos + length (take WINDOW (drop pos data))) data =
  take pos data ++ take WINDOW (drop pos data).
Proof.
  intros Hpos.
  assert (Hn : take (length (take WINDOW (drop pos data))) (drop pos data) =
               take WINDOW (drop pos data)).
  { rewrite length_take.
    destruct (Nat.le_gt_cases WINDOW (length (drop pos data))).
    - by rewrite Nat.min_l by lia.
    - rewrite Nat.min_r by lia. by rewrite !take_ge by lia. }
  revert Hn. generalize (length (take WINDOW (drop pos data))). intros n Hn.
  rewrite <- (take_drop pos data) at 1.
  rewrite take_app_add' by (rewrite length_take; lia).
  by rewrite Hn.
Qed.

(** Writing a window back where it was read. *)
Lemma write_back (data pw : list Z) (pos q : nat) :
  (pos <= length data)%nat ->
  length pw = length (take WINDOW (drop pos data)) ->
  f_write pw (f_seek pos (File data q)) =
    File (take pos data ++ pw ++ drop WINDOW (drop pos data))
         (pos + length (take WINDOW (drop pos data))).
Proof.
  intros Hpos Hlen. unfold f_write, f_seek. cbn [f_data f_pos].
  rewrite take_app_le by lia. rewrite Hlen, drop_window. reflexivity.
Qed.

(** The loop terminates, and patches every window on its own. *)
Lemma auto_loop_spec (fuel : nat) (mw : Z) (data : list Z) (pos : nat)
    (out : list string) :
  0 <= mw <= 0xFFFF ->
  (pos <= length data)%nat -> (length data - pos < fuel)%nat ->
  auto_loop fuel mw (File data pos) out =
    Finished (File (take pos data ++ patch_all fuel mw (drop pos data))
                   (length data))
             (out ++ replicate (hits fuel (drop pos data)) found_signature).
Proof.
  intros Hmw. revert data pos out.
  induction fuel as [|fuel IH]; intros data pos out Hpos Hfuel; [lia|].
  cbn [auto_loop]. unfold f_tell, f_read. cbn [f_data f_pos].
  pose proof (take_window data pos Hpos) as Htake.
  pose proof (drop_window data pos) as Hdrop.
  destruct (drop pos data) as [|x rest] eqn:Hd.
  { rewrite take_nil. cbn [length patch_all hits replicate].
    apply drop_nil_inv in Hd. rewrite take_ge by lia.
    rewrite !app_nil_r. replace (pos + 0)%nat with (length data) by lia.
    reflexivity. }
  cbn [patch_all hits].
  pose proof (length_take (x :: rest) WINDOW) as Hlb.
  pose proof WINDOW_pos as HW.
  destruct (take WINDOW (x :: rest)) as [|b0 buf] eqn:Hbuf.
  { cbn [length] in Hlb. lia. }
  assert (Hlen : length data = (pos + length (x :: rest))%nat).
  { rewrite <- Hd, length_drop. lia. }
  destruct (bytes_find signature (b0 :: buf)) as [[|p]|] eqn:Hfind.
  - rewrite IH by (cbn [length] in *; lia).
    rewrite Htake, Hdrop. unfold patch_window. rewrite Hfind.
    by rewrite <- app_assoc.
  - rewrite (pack_both mw _ p Hmw Hfind).
    pose proof (length_patch_window mw (b0 :: buf)) as Hpw.
    rewrite <- Hbuf, <- Hd in *.
    rewrite (write_back data _ pos) by (rewrite ?Hpw; done).
    assert (Hlp : length (take pos data) = pos) by (rewrite length_take; lia).
    rewrite IH.
    + assert (Hsz : (pos + length (take WINDOW (drop pos data)))%nat =
                    length (take pos data ++
                            patch_window mw (take WINDOW (drop pos data)))).
      { by rewrite length_app, Hpw, Hlp. }
      rewrite app_assoc, Hsz, take_app_length, drop_app_length.
      rewrite <- !app_assoc. cbn [Nat.add replicate app].
      do 2 f_equal.
      rewrite !length_app, Hpw, Hlp, (length_drop _ WINDOW), Hlb, Hlen. lia.
    + rewrite !length_app, Hlp, Hpw, !length_drop. lia.
    + rewrite !length_app, Hlp, Hpw, !length_drop.
      rewrite Hbuf in Hlb. cbn [length] in Hlb. rewrite Hbuf. cbn [length]. lia.
  - rewrite IH by (cbn [length] in *; lia).
    rewrite Htake, Hdrop. unfold patch_window. rewrite Hfind.
    by rewrite <- app_assoc.
Qed.

Lemma patch_all_nil (fuel : nat) (mw : Z) : patch_all fuel mw [] = [].
Proof. by destruct fuel. Qed.

Lemma length_patch_all (fuel : nat) (mw : Z) (img : list Z) :
  length (patch_all fuel mw img) = length img.
Proof.
  revert img. induction fuel as [|fuel IH]; intros img; [done|].
  destruct img as [|x rest]; [done|]. cbn [patch_all].
  rewrite length_app, length_patch_window, IH, <- length_app.
  by rewrite take_drop.
Qed.

(** Window [j] of the patched image is window [j] of the image, patched. *)
Lemma window_patch_all (fuel : nat) (mw : Z) (img : list Z) (j : nat) :
  (length img < fuel)%nat ->
  window j (patch_all fuel mw img) = patch_window mw (window j img).
Proof.
  revert img j. induction fuel as [|fuel IH]; intros img j Hfuel; [lia|].
  pose proof WINDOW_pos as HW.
  destruct img as [|x rest].
  { unfold window. cbn [patch_all]. by rewrite !drop_nil, !take_nil. }
  cbn [patch_all]. set (img := x :: rest) in *.
  assert (Himg : (0 < length img)%nat) by (unfold img; cbn [length]; lia).
  pose proof (length_patch_window mw (take WINDOW img)) as HA.
  rewrite length_take in HA. unfold window.
  destruct (Nat.le_gt_cases WINDOW (length img)) as [Hle|Hgt].
  - rewrite Nat.min_l in HA by lia. destruct j as [|j].
    + cbn [Nat.mul]. rewrite !drop_0. by rewrite take_app_length'.
    + cbn [Nat.mul]. rewrite drop_app_add' by done.
      rewrite <- drop_drop. apply (IH (drop WINDOW img) j).
      rewrite length_drop. lia.
  - rewrite Nat.min_r in HA by lia.
    rewrite (drop_ge img WINDOW) by lia. rewrite patch_all_nil, app_nil_r.
    rewrite (take_ge img WINDOW) in * by lia. destruct j as [|j].
    + cbn [Nat.mul]. rewrite !drop_0.
      rewrite take_ge by lia. by rewrite (take_ge img) by lia.
    + cbn [Nat.mul]. rewrite !drop_ge by lia. by rewrite take_nil.
Qed.

(** Reading a slice inside one window. *)
Lemma slice_in_window (l : list Z) (j lo hi : nat) :
  (hi <= WINDOW)%nat ->
  slice (j * WINDOW + lo) (j * WINDOW + hi) l = slice lo hi (window j l).
Proof.
  intros Hhi. unfold slice, window.
  replace (j * WINDOW + hi - (j * WINDOW + lo))%nat with (hi - lo)%nat by lia.
  rewrite <- drop_drop.
  generalize (drop (j * WINDOW) l). intros m.
  destruct (Nat.le_gt_cases lo hi) as [Hle|Hgt].
  - assert (E : drop lo (take WINDOW m) = take (WINDOW - lo) (drop lo m)).
    { rewrite take_drop_commute. do 2 f_equal. lia. }
    rewrite E, take_take. f_equal. lia.
  - replace (hi - lo)%nat with 0%nat by lia. reflexivity.
Qed.

(** The automatic mode never runs out of fuel and never raises for a
    16-bit magic word. *)
Lemma apply_ppf_auto_spec (img : string) (mw : Z) (w : world) (data : list Z) :
  0 <= mw <= 0xFFFF -> w_fs w !! img = Some data ->
  apply_ppf_auto img mw w =
    Some (World (<[img := patch_all (S (length data)) mw data]> (w_fs w))
                (w_temp_files w)
                ((w_stdout w ++
                  [("Try to automatically generate libcrypt patch for " ++ img)%string])
                 ++ replicate (hits (S (length data)) data) found_signature),
          None).
Proof.
  intros Hmw Hdata. unfold apply_ppf_auto, print. cbn [w_fs w_temp_files w_stdout].
  rewrite (open_existing_found _ _ _ Hdata). cbn [f_data].
  rewrite auto_loop_spec by (cbn [length]; lia).
  by rewrite take_0, drop_0.
Qed.

End LibcryptFacts.

(** ** Claims about the TOC synthesizer *)

Import Toc TocSpec.





(** ** Claims about the magic word *)



(** The alternate marker of the fifteenth pair is spelled without its
    closing bracket in the table, so a section holding [<td>16106</td>]
    alone sets no bit. *)
Lemma magic_word_16106 :
  MagicWord.generate_magic_word 200 MagicWord.report_16106 = Ok 0.
Proof. vm_compute. reflexivity. Qed.

(** ** Claims about memory cards *)

Import MemoryCard.

(** C6.  Exactly the sizes 131072, 131200, 131136, 262144 and 134976 are
    recognized; each has its header length (0, 128, 64, 0, 3904) and yields
    consecutive 131072-byte images read from there: two for 262144 bytes,
    one otherwise.  A 262144-byte file gives [buf[0:131072]] and
    [buf[131072:262144]]; a 131200-byte file gives [buf[128:131200]]. *)
Theorem C6_memory_card_sizes (fs : filesystem) (f : string) (d : list Z) :
  fs !! f = Some d ->
  ((exists imgs, check_memory_card fs f = Ok (Some imgs)) <->
   Z.of_nat (length d) ∈ [131072; 131200; 131136; 262144; 134976]) /\
  (forall off n,
     (Z.of_nat (length d), (off, n)) ∈ recognized ->
     check_memory_card fs f =
       Ok (Some (images off n d)) /\
     (n = 2%nat <-> Z.of_nat (length d) = 262144) /\
     (n = 1%nat <-> Z.of_nat (length d) <> 262144)) /\
  (Z.of_nat (length d) = 262144 ->
   check_memory_card fs f =
     Ok (Some [slice 0 (Z.to_nat 131072) d;
               slice (Z.to_nat 131072) (Z.to_nat 262144) d]) /\
   length (slice 0 (Z.to_nat 131072) d) = Z.to_nat 131072 /\
   length (slice (Z.to_nat 131072) (Z.to_nat 262144) d) = Z.to_nat 131072) /\
  (Z.of_nat (length d) = 131200 ->
   check_memory_card fs f = Ok (Some [slice (Z.to_nat 128) (Z.to_nat 131200) d]) /\
   length (slice (Z.to_nat 128) (Z.to_nat 131200) d) = Z.to_nat 131072).
Proof.
  intros Hf. rewrite (check_memory_card_cases fs f d Hf).
  repeat split.
  - intros [imgs Himgs]. rewrite !elem_of_cons, elem_of_nil.
    revert Himgs. decide_size; try discriminate; tauto.
  - rewrite !elem_of_cons, elem_of_nil. intros Hsz.
    decide_size; eauto.
  - unfold recognized in *. rewrite !elem_of_cons, elem_of_nil in H.
    destruct H as [H|[H|[H|[H|[H|[]]]]]]; injection H as Hd -> ->;
      rewrite Hd; decide_size; reflexivity.
  - unfold recognized in *. rewrite !elem_of_cons, elem_of_nil in H.
    destruct H as [H|[H|[H|[H|[H|[]]]]]]; injection H as Hd Ho Hn; lia.
  - unfold recognized in *. rewrite !elem_of_cons, elem_of_nil in H.
    destruct H as [H|[H|[H|[H|[H|[]]]]]]; injection H as Hd Ho Hn; lia.
  - unfold recognized in *. rewrite !elem_of_cons, elem_of_nil in H.
    destruct H as [H|[H|[H|[H|[H|[]]]]]]; injection H as Hd Ho Hn; lia.
  - unfold recognized in *. rewrite !elem_of_cons, elem_of_nil in H.
    destruct H as [H|[H|[H|[H|[H|[]]]]]]; injection H as Hd Ho Hn; lia.
  - rewrite H. decide_size.
    replace (Z.to_nat 262144) with (0 + MC_SIZE + MC_SIZE)%nat
      by (unfold MC_SIZE; lia).
    replace (Z.to_nat 131072) with (0 + MC_SIZE)%nat by (unfold MC_SIZE; lia).
    reflexivity.
  - rewrite length_slice; lia.
  - rewrite length_slice; lia.
  - rewrite H. decide_size.
    replace (Z.to_nat 131200) with (Z.to_nat 128 + MC_SIZE)%nat
      by (unfold MC_SIZE; lia).
    reflexivity.
  - rewrite length_slice; lia.
Qed.

Lemma C6_memory_card_sizes_witness :
  check_memory_card fs_two_cards "card.mcd" =
    Ok (Some [slice 0 (Z.to_nat 131072) (two_card_dump);
              slice (Z.to_nat 131072) (Z.to_nat 262144)
                    (two_card_dump)]).
Proof.
  destruct (C6_memory_card_sizes fs_two_cards "card.mcd" two_card_dump
              (lookup_singleton_eq _ _))
    as (_ & _ & H & _).
  apply H. unfold two_card_dump. rewrite length_replicate. lia.
Defined.




(** C9 (as stated).  The byte written at offset 131071 is [bytes(1)], one
    zero byte: the last byte of a blank card is 0, not a non-zero
    sentinel. *)
Lemma C9_last_byte_counterexample :
  exists img,
    create_blank_mc ∅ "SLOT0.VMC" !! "SLOT0.VMC"%string = Some img /\
    img !! Z.to_nat 131071 = Some 0 /\
    ~ (exists v, img !! Z.to_nat 131071 = Some v /\ v <> 0).
Proof.
  exists (f_data (blank_writes (File [] 0))).
  assert (H : f_data (blank_writes (File [] 0)) !! Z.to_nat 131071 = Some 0).
  { rewrite blank_image_lookup by lia. rewrite blank_byte_tail; [done|lia]. }
  split; [apply lookup_insert_eq|]. split; [exact H|].
  intros (v & Hv & Hne). rewrite H in Hv. congruence.
Qed.

(** C9 (amended).  [create_blank_mc] always writes the same image of exactly
    131072 bytes: the last byte is written as one zero byte (which gives the
    file its full size); "MC" is at offset 0; the first directory entry is at
    0x70, the free entry at 0xf0 + 0x80 * j for j < 14, the last entry at
    0x7f0 (32 bytes each), the 16-byte pattern at 0x880 + 0x80 * j for
    j < 19; and byte [i] is [blank_byte i] throughout, so every byte outside
    these records is zero. *)
Theorem C9_blank_card (fs : filesystem) (mc : string) :
  exists img,
    create_blank_mc fs mc !! mc = Some img /\
    length img = Z.to_nat 131072 /\
    img !! Z.to_nat 131071 = Some 0 /\
    slice 0 2 img = [0x4d; 0x43] /\
    slice (Z.to_nat 0x70) (Z.to_nat 0x90) img = dir_first /\
    (forall j, (j < 14)%nat ->
       slice (Z.to_nat (0xf0 + 0x80 * Z.of_nat j))
             (Z.to_nat (0xf0 + 0x80 * Z.of_nat j + 32)) img = dir_free) /\
    slice (Z.to_nat 0x7f0) (Z.to_nat 0x810) img = dir_last /\
    (forall j, (j < 19)%nat ->
       slice (Z.to_nat (0x880 + 0x80 * Z.of_nat j))
             (Z.to_nat (0x880 + 0x80 * Z.of_nat j + 16)) img = broken_sector) /\
    (forall i, (i < Z.to_nat 131072)%nat ->
       img !! i = Some (blank_byte (Z.of_nat i))).
Proof.
  exists (f_data (blank_writes (File [] 0))).
  split; [apply lookup_insert_eq|].
  split; [apply blank_image_length|].
  split; [rewrite blank_image_lookup by lia; rewrite blank_byte_tail; [done|lia]|].
  split; [rewrite blank_image_slice by (unfold HEAD; lia); vm_compute; reflexivity|].
  split; [rewrite blank_image_slice by (unfold HEAD; lia); vm_compute; reflexivity|].
  split.
  { intros j Hj. rewrite blank_image_slice by (unfold HEAD; lia).
    do 14 (destruct j as [|j]; [vm_compute; reflexivity|]). lia. }
  split; [rewrite blank_image_slice by (unfold HEAD; lia); vm_compute; reflexivity|].
  split.
  { intros j Hj. rewrite blank_image_slice by (unfold HEAD; lia).
    do 19 (destruct j as [|j]; [vm_compute; reflexivity|]). lia. }
  apply blank_image_lookup.
Qed.

(** ** Claims about libcrypt patching *)

Import Libcrypt.

Lemma bytes_find_start (sub buf : list Z) :
  take (length sub) buf = sub -> bytes_find sub buf = Some 0%nat.
Proof.
  intros H. apply starts_with_spec in H. destruct buf; cbn [bytes_find]; by rewrite H.
Qed.

Lemma patch_window_cases (mw : Z) (buf : list Z) :
  patch_window mw buf = buf \/
  exists p, bytes_find signature buf = Some (S p) /\
            patch_window mw buf =
              take (S p) buf ++ [Z.land mw 0xFF; Z.shiftr mw 8; 0xc6; 0x34] ++
              drop (S p + 4) buf.
Proof.
  unfold patch_window.
  destruct (bytes_find signature buf) as [[|p]|] eqn:Hfind; [by left| |by left].
  right. exists p. split; [done|].
  destruct (bytes_find_Some _ _ _ Hfind) as (_ & Hlen & _).
  apply insert_four. exact Hlen.
Qed.

(** C10.  In every window the automatic patch changes at most the four bytes
    of one occurrence of the signature, the first one in that window, and
    only when it starts at a strictly positive offset: a window that starts
    with the signature is left as it is. *)
Theorem C10_one_patch_per_window (img : string) (mw : Z) (w : world)
    (data : list Z) (j : nat) :
  0 <= mw <= 0xFFFF -> w_fs w !! img = Some data ->
  exists w' data',
    apply_ppf_auto img mw w = Some (w', None) /\
    w_fs w' !! img = Some data' /\
    length data' = length data /\
    (window j data' = window j data \/
     exists p,
       bytes_find signature (window j data) = Some (S p) /\
       (forall q, (q < S p)%nat -> take 4 (drop q (window j data)) <> signature) /\
       window j data' =
         take (S p) (window j data) ++
         [Z.land mw 0xFF; Z.shiftr mw 8; 0xc6; 0x34] ++
         drop (S p + 4) (window j data)) /\
    (take 4 (window j data) = signature -> window j data' = window j data).
Proof.
  intros Hmw Hdata. rewrite (apply_ppf_auto_spec img mw w data Hmw Hdata).
  eexists. exists (patch_all (S (length data)) mw data).
  split; [reflexivity|]. cbn [w_fs].
  split; [apply lookup_insert_eq|]. split; [apply length_patch_all|].
  rewrite window_patch_all by lia. split.
  - destruct (patch_window_cases mw (window j data)) as [H|(p & Hfind & H)];
      [by left|right].
    exists p. split; [done|]. split; [|done].
    apply (bytes_find_Some _ _ _ Hfind).
  - intros Hstart. unfold patch_window.
    by rewrite (bytes_find_start signature _ Hstart).
Qed.

Lemma C10_one_patch_per_window_witness :
  exists w' data',
    apply_ppf_auto "disc.bin" 0x1234
      (World {[ "disc.bin"%string := two_signatures ]} [] []) = Some (w', None) /\
    w_fs w' !! "disc.bin"%string = Some data' /\
    length data' = length two_signatures.
Proof.
  destruct (C10_one_patch_per_window "disc.bin" 0x1234
              (World {[ "disc.bin"%string := two_signatures ]} [] [])
              two_signatures 0 ltac:(lia) (lookup_singleton_eq _ _))
    as (w' & data' & H1 & H2 & H3 & _).
  exists w', data'. auto.
Defined.
(** C4 (as stated).  With the signature at offsets 1 and 5 of a nine-byte
    image, the automatic patch rewrites the occurrence at offset 1 only: the
    signature at offset 5 is still there afterwards. *)
Lemma C4_every_occurrence_counterexample :
  exists w' data',
    apply_ppf_auto "disc.bin" 0x1234
      (World {[ "disc.bin"%string := two_signatures ]} [] []) = Some (w', None) /\
    w_fs w' !! "disc.bin"%string = Some data' /\
    slice 5 9 two_signatures = signature /\
    slice 5 9 data' = signature /\
    slice 5 7 data' <> [Z.land 0x1234 0xFF; Z.shiftr 0x1234 8].
Proof.
  rewrite (apply_ppf_auto_spec "disc.bin" 0x1234 _ two_signatures
             ltac:(lia) (lookup_singleton_eq _ _)).
  eexists. exists (patch_all (S (length two_signatures)) 0x1234 two_signatures).
  split; [reflexivity|]. split; [apply lookup_insert_eq|].
  assert (E : patch_all (S (length two_signatures)) 0x1234 two_signatures =
              [0; 0x34; 0x12; 0xc6; 0x34; 0x25; 0x30; 0x86; 0x00])
    by (vm_compute; reflexivity).
  rewrite E. split; [reflexivity|]. split; [reflexivity|]. discriminate.
Qed.

Lemma signature_at (l : list Z) (q : nat) :
  take 4 (drop q l) = signature ->
  l !! q = Some 0x25 /\ l !! (q + 1)%nat = Some 0x30 /\
  l !! (q + 2)%nat = Some 0x86 /\ l !! (q + 3)%nat = Some 0x00.
Proof.
  intros H.
  assert (Hk : forall k, (k < 4)%nat -> l !! (q + k)%nat = signature !! k).
  { intros k Hk. rewrite <- H, lookup_take_lt, lookup_drop by exact Hk. reflexivity. }
  repeat split; [rewrite <- (Nat.add_0_r q) at 1| | |]; by rewrite Hk by lia.
Qed.

(** Two occurrences of the signature cannot overlap. *)
Lemma signature_apart (l : list Z) (p q : nat) :
  take 4 (drop p l) = signature -> take 4 (drop q l) = signature ->
  (p < q)%nat -> (p + 4 <= q)%nat.
Proof.
  intros Hp Hq Hlt.
  destruct (signature_at l p Hp) as (_ & Hp1 & Hp2 & Hp3).
  destruct (signature_at l q Hq) as (Hq0 & _).
  destruct (decide (q = p + 1)%nat) as [->|]; [congruence|].
  destruct (decide (q = p + 2)%nat) as [->|]; [congruence|].
  destruct (decide (q = p + 3)%nat) as [->|]; [congruence|].
  lia.
Qed.

(** C4 (amended).  The image is scanned window by window, 0x9300 bytes at a
    time, to its end; in every window whose first occurrence of the
    signature is at a strictly positive offset [pos], the two bytes at that
    offset become the little-endian magic word and the next two the
    little-endian 0x34c6, in place: the file keeps its length and no other
    file changes.  Nothing else in the window is written: the window is the
    old one with these four bytes replaced, and every later occurrence of
    the signature in it is still there afterwards. *)
Theorem C4_auto_patch (img : string) (mw : Z) (w : world) (data : list Z)
    (j pos : nat) :
  0 <= mw <= 0xFFFF -> w_fs w !! img = Some data ->
  bytes_find signature (window j data) = Some pos -> (0 < pos)%nat ->
  exists w' data',
    apply_ppf_auto img mw w = Some (w', None) /\
    w_fs w' = <[img := data']> (w_fs w) /\
    length data' = length data /\
    slice (j * WINDOW + pos) (j * WINDOW + (pos + 2)) data' =
      [Z.land mw 0xFF; Z.shiftr mw 8] /\
    slice (j * WINDOW + (pos + 2)) (j * WINDOW + (pos + 4)) data' =
      [Z.land 0x34c6 0xFF; Z.shiftr 0x34c6 8] /\
    window j data' =
      take pos (window j data) ++
      [Z.land mw 0xFF; Z.shiftr mw 8; Z.land 0x34c6 0xFF; Z.shiftr 0x34c6 8] ++
      drop (pos + 4) (window j data) /\
    (forall q, (pos < q)%nat ->
       take 4 (drop q (window j data)) = signature ->
       take 4 (drop q (window j data')) = signature).
Proof.
  intros Hmw Hdata Hfind Hpos.
  rewrite (apply_ppf_auto_spec img mw w data Hmw Hdata).
  eexists. exists (patch_all (S (length data)) mw data).
  split; [reflexivity|]. split; [reflexivity|]. split; [apply length_patch_all|].
  destruct pos as [|p]; [lia|].
  destruct (bytes_find_Some _ _ _ Hfind) as (Hsig & Hlen & _).
  change (length signature) with 4%nat in Hlen, Hsig.
  assert (HW : (S p + 4 <= WINDOW)%nat).
  { unfold window in Hlen. rewrite length_take in Hlen. lia. }
  rewrite !slice_in_window by lia.
  rewrite window_patch_all by lia.
  unfold patch_window. rewrite Hfind. rewrite insert_four by exact Hlen.
  generalize dependent (window j data). intros wd _ Hsig Hlen.
  assert (Hlp : length (take (S p) wd) = S p) by (rewrite length_take; lia).
  unfold slice. split; [|split; [|split]].
  - rewrite drop_app_length' by done.
    replace (S p + 2 - S p)%nat with 2%nat by lia. reflexivity.
  - rewrite drop_app_add' by done.
    replace (S p + 4 - (S p + 2))%nat with 2%nat by lia. reflexivity.
  - reflexivity.
  - intros q Hq Hlater.
    pose proof (signature_apart wd (S p) q Hsig Hlater Hq) as Hfar.
    replace q with (S p + (4 + (q - (S p + 4))))%nat at 1 by lia.
    rewrite drop_app_add' by done.
    change [Z.land mw 255; Z.shiftr mw 8; 198; 52]
      with ([Z.land mw 255; Z.shiftr mw 8; 198; 52] ++ []).
    rewrite <- app_assoc, drop_app_add' by done.
    cbn [app]. rewrite drop_drop.
    replace (S p + 4 + (q - (S p + 4)))%nat with q by lia. exact Hlater.
Qed.

Lemma C4_auto_patch_witness :
  exists w' data',
    apply_ppf_auto "disc.bin" 0x1234
      (World {[ "disc.bin"%string := two_signatures ]} [] []) = Some (w', None) /\
    w_fs w' = <[ "disc.bin"%string := data' ]> {[ "disc.bin"%string := two_signatures ]} /\
    length data' = length two_signatures /\
    slice (0 * WINDOW + 1) (0 * WINDOW + (1 + 2)) data' =
      [Z.land 0x1234 0xFF; Z.shiftr 0x1234 8] /\
    slice (0 * WINDOW + (1 + 2)) (0 * WINDOW + (1 + 4)) data' =
      [Z.land 0x34c6 0xFF; Z.shiftr 0x34c6 8] /\
    window 0 data' =
      take 1 (window 0 two_signatures) ++
      [Z.land 0x1234 0xFF; Z.shiftr 0x1234 8; Z.land 0x34c6 0xFF; Z.shiftr 0x34c6 8] ++
      drop (1 + 4) (window 0 two_signatures) /\
    (forall q, (1 < q)%nat ->
       take 4 (drop q (window 0 two_signatures)) = signature ->
       take 4 (drop q (window 0 data')) = signature).
Proof.
  assert (Hfind : bytes_find signature (window 0 two_signatures) = Some 1%nat)
    by (vm_compute; reflexivity).
  pose proof (C4_auto_patch "disc.bin" 0x1234
                (World {[ "disc.bin"%string := two_signatures ]} [] [])
                two_signatures 0 1 ltac:(lia) (lookup_singleton_eq _ _)
                Hfind ltac:(lia)) as H.
  cbn [w_fs] in H. exact H.
Defined.
(** C8.  With the automatic mode off, [apply_ppf] looks the disc up in the
    table.  An entry with a [ppf] has it applied to the image.  Otherwise an
    entry with a [ppfzip] has the archive fetched, the named member
    extracted (and recorded as a temporary file) and applied; when the fetch
    does not answer 200, a warning is printed and nothing is raised or
    changed.  An entry with neither prints a warning and leaves every file
    as it was. *)
Theorem C8_table_driven (libcrypt : gmap string entry)
    (ApplyPPF : filesystem -> string -> string -> filesystem * option exn)
    (requests_get : string -> Z * list Z)
    (zip_extract : list Z -> string -> filesystem -> result filesystem)
    (verbose : bool) (img disc_id : string) (mw : Z) (w : world) (e : entry) :
  libcrypt !! disc_id = Some e ->
  let r := apply_ppf libcrypt ApplyPPF requests_get zip_extract verbose
                     img disc_id mw false w in
  (forall ppf, e_ppf e = Some ppf ->
     exists out,
       r = Some (World (ApplyPPF (w_fs w) img ppf).1 (w_temp_files w) out,
                 (ApplyPPF (w_fs w) img ppf).2)) /\
  (e_ppf e = None -> e_ppfzip e = None ->
     exists out,
       r = Some (World (w_fs w) (w_temp_files w) out, None) /\
       warn_no_ppf disc_id ∈ out) /\
  (forall url member,
     e_ppf e = None -> e_ppfzip e = Some (url, member) ->
     (requests_get url).1 <> 200 ->
     exists out,
       r = Some (World (w_fs w) (w_temp_files w) out, None) /\
       warn_fetch_failed ∈ out) /\
  (forall url member fs',
     e_ppf e = None -> e_ppfzip e = Some (url, member) ->
     (requests_get url).1 = 200 ->
     zip_extract (requests_get url).2 member (w_fs w) = Ok fs' ->
     exists out,
       r = Some (World (ApplyPPF fs' img member).1 (w_temp_files w ++ [member]) out,
                 (ApplyPPF fs' img member).2)).
Proof.
  intros Hlook r. subst r. unfold apply_ppf, apply_ppf_table. rewrite Hlook.
  unfold run_ApplyPPF, print_verbose, print.
  repeat split.
  - intros ppf ->. destruct (e_credit e); eexists; reflexivity.
  - intros -> ->. destruct (e_credit e); eexists; (split; [reflexivity|]);
      cbn [w_stdout]; rewrite !elem_of_app, !list_elem_of_singleton; tauto.
  - intros url member -> -> Hstatus.
    destruct (Z.eqb_spec (requests_get url).1 200) as [|_]; [done|].
    cbn [negb].
    destruct (e_credit e), verbose; eexists; (split; [reflexivity|]);
      cbn [w_stdout]; rewrite !elem_of_app, !list_elem_of_singleton; tauto.
  - intros url member fs' -> -> Hstatus Hzip. rewrite Hstatus. cbn [Z.eqb negb].
    destruct (e_credit e), verbose; cbn [w_fs]; rewrite Hzip;
      eexists; reflexivity.
Qed.

Lemma C8_table_driven_witness :
  exists out,
    apply_ppf {[ "SLES-00001"%string := Entry None None None (Some 0x1234) ]}
              (fun fs _ _ => (fs, None)) (fun _ => (404, []))
              (fun _ _ fs => Ok fs) false
              "disc.bin" "SLES-00001" 0x1234 false
              (World {[ "disc.bin"%string := two_signatures ]} [] []) =
      Some (World {[ "disc.bin"%string := two_signatures ]} [] out, None) /\
    warn_no_ppf "SLES-00001" ∈ out.
Proof.
  destruct (C8_table_driven
              {[ "SLES-00001"%string := Entry None None None (Some 0x1234) ]}
              (fun fs _ _ => (fs, None)) (fun _ => (404, []))
              (fun _ _ fs => Ok fs) false
              "disc.bin" "SLES-00001" 0x1234
              (World {[ "disc.bin"%string := two_signatures ]} [] [])
              (Entry None None None (Some 0x1234)) (lookup_singleton_eq _ _))
    as (_ & H & _).
  exact (H eq_refl eq_refl).
Defined.

(** * Further properties *)

(** ** BCD *)

Section PyBcd.
Import More.

Lemma round_half_even_bounds (p q : Z) :
  0 < q -> p / q <= round_half_even p q <= p / q + 1 /\
  (round_half_even p q = p / q + 1 -> q <= 2 * (p mod q)).
Proof.
  intros Hq. unfold round_half_even. cbv zeta.
  destruct (Z.ltb_spec (2 * (p mod q)) q); [lia|].
  destruct (Z.ltb_spec q (2 * (p mod q))); [lia|].
  destruct (Z.even (p / q)); lia.
Qed.

(** Below 10 * 2^50 the double keeps enough of the fraction for [int()] to
    give the exact quotient. *)
Lemma int_div10_small (n : Z) :
  0 <= n < 10 * 2 ^ 50 -> int_div10 n = Some (n / 10).
Proof.
  intros Hn. unfold int_div10.
  destruct (Z.ltb_spec n 10) as [Hlt|Hge].
  { by rewrite Z.div_small by lia. }
  cbv zeta. set (k := n / 10).
  assert (Hk : 1 <= k < 2 ^ 50).
  { subst k. split; [apply Z.div_le_lower_bound; lia|].
    apply Z.div_lt_upper_bound; lia. }
  assert (He : 0 <= Z.log2 k < 50).
  { split; [apply Z.log2_nonneg|]. apply Z.log2_lt_pow2; lia. }
  destruct (Z.leb_spec (Z.log2 k) 52); [|lia].
  set (s := 52 - Z.log2 k). assert (Hs : 3 <= s) by (subst s; lia).
  assert (HP : 8 <= 2 ^ s).
  { change 8 with (2 ^ 3). apply Z.pow_le_mono_r; lia. }
  generalize dependent (2 ^ s). intros P HP.
  destruct (round_half_even_bounds (n * P) 10 ltac:(lia)) as [Hm Hup].
  pose proof (Z.div_mod (n * P) 10 ltac:(lia)) as Hdm.
  pose proof (Z.mod_pos_bound (n * P) 10 ltac:(lia)) as Hr.
  pose proof (Z.div_mod n 10 ltac:(lia)) as Hdn.
  pose proof (Z.mod_pos_bound n 10 ltac:(lia)) as Hd.
  fold k in Hdn.
  f_equal. symmetry.
  apply (Z.div_unique _ _ _ (round_half_even (n * P) 10 - k * P)); [|lia].
  assert (Hprod : n * P = 10 * (k * P) + (n mod 10) * P) by (rewrite Hdn at 1; ring).
  assert (HX : 0 <= (n mod 10) * P <= 9 * P) by nia.
  generalize dependent ((n mod 10) * P). intros X HprodX HX.
  generalize dependent (k * P). intros K HprodK.
  destruct (Z.eq_dec (round_half_even (n * P) 10) (n * P / 10 + 1)) as [E|E].
  - specialize (Hup E). lia.
  - lia.
Qed.

Lemma py_bcd_small (i : Z) :
  Z.abs i < 10 * 2 ^ 50 -> py_bcd i = Some (Toc.bcd i).
Proof.
  intros Hi. unfold py_bcd, Toc.bcd.
  destruct (Z.leb_spec 0 i).
  - rewrite int_div10_small by lia. cbn. by rewrite Z.quot_div_nonneg by lia.
  - rewrite int_div10_small by lia. cbn. do 4 f_equal.
    rewrite <- (Z.opp_involutive i) at 2.
    rewrite Z.quot_opp_l by lia. by rewrite Z.quot_div_nonneg by lia.
Qed.

End PyBcd.

(** X1.  Whenever [bcd] returns, for any integer whatever, its value lies
    between 0 and 153, so storing it in a [bytearray] never fails. *)
Theorem bcd_fits_a_byte (i v : Z) : More.py_bcd i = Some v -> 0 <= v <= 153.
Proof.
  unfold More.py_bcd. intros H.
  destruct (if 0 <=? i then More.int_div10 i else Z.opp <$> More.int_div10 (- i))
    as [q|]; [|discriminate H].
  cbn in H. injection H as <-.
  pose proof (Z.mod_pos_bound i 10 ltac:(lia)).
  pose proof (Z.mod_pos_bound q 10 ltac:(lia)).
  lia.
Qed.

Lemma bcd_fits_a_byte_witness :
  More.py_bcd 99999999999999999 = Some 9 /\ 0 <= 9 <= 153.
Proof.
  assert (H : More.py_bcd 99999999999999999 = Some 9) by (vm_compute; reflexivity).
  split; [exact H|]. apply (bcd_fits_a_byte 99999999999999999 9 H).
Defined.

(** X2.  For [0 <= i < 10 * 2^50], [bcd] encodes the last two decimal
    digits of [i] and nothing else: its value is that of [i mod 100], and
    decoding gives [i mod 100].  The bound cannot be raised: at
    [10 * 2^50 + 9] the float quotient is rounded up, and the result is
    0x59 where the last two digits, 49, would give 0x49. *)
Theorem bcd_keeps_two_digits :
  (forall i, 0 <= i < 10 * 2 ^ 50 ->
     More.py_bcd i = Some (Toc.bcd (i mod 100)) /\
     Toc.decode_bcd (Toc.bcd (i mod 100)) = i mod 100) /\
  More.py_bcd (10 * 2 ^ 50 + 9) = Some 0x59 /\
  Toc.bcd ((10 * 2 ^ 50 + 9) mod 100) = 0x49.
Proof.
  split; [|split; vm_compute; reflexivity].
  intros i Hi.
  assert (Hr : 0 <= i mod 100 < 100) by (apply Z.mod_pos_bound; lia).
  assert (E : Toc.bcd i = Toc.bcd (i mod 100)).
  { unfold Toc.bcd. rewrite !Z.quot_div_nonneg by lia.
    change 100 with (10 * 10). rewrite Z.rem_mul_r by lia.
    set (x := i mod 10). set (y := (i / 10) mod 10).
    assert (0 <= x < 10) by (apply Z.mod_pos_bound; lia).
    assert (0 <= y < 10) by (apply Z.mod_pos_bound; lia).
    rewrite (Z.mul_comm 10 y), Z_mod_plus_full, Z_div_plus_full by lia.
    rewrite (Z.mod_small x), (Z.div_small x), (Z.mod_small (0 + y)) by lia.
    lia. }
  rewrite py_bcd_small by lia. split; [by rewrite E|].
  pose proof bcd_table_checked as Hc. rewrite forallb_forall in Hc.
  specialize (Hc (Z.to_nat (i mod 100))). rewrite Z2Nat.id in Hc by lia.
  apply andb_true_iff in Hc as [_ H2]; [by apply Z.eqb_eq in H2|].
  apply in_seq. lia.
Qed.

Lemma bcd_keeps_two_digits_witness :
  More.py_bcd 123 = Some (Toc.bcd (123 mod 100)) /\
  Toc.decode_bcd (Toc.bcd (123 mod 100)) = 123 mod 100.
Proof. apply (proj1 bcd_keeps_two_digits 123). lia. Defined.

(** ** The TOC synthesizer: malformed descriptors *)

Section TocMore.
Import Toc TocSpec More.



Lemma toc_from_lines_readable lines N e msfs :
  readable lines N e msfs ->
  toc_from_lines lines = Ok (header_of N e ++ records 1 msfs).
Proof.
  intros [Hint (ln & Hln & HN) (le & Hle & He) Htracks].
  unfold toc_from_lines.
  destruct (scan_spec lines (None, None) Hint) as (nt & Hscan & Hnt).
  rewrite Hscan, bind_ok. rewrite Hln in Hnt. rewrite Hle.
  destruct Hnt as (n & Hn & ->). rewrite HN in Hn. injection Hn as <-.
  cbn [fst snd not_none]. rewrite bind_ok.
  apply msf_fields_inv in He as (Hm & Hs & Hf).
  rewrite bytearray_set_bcd by (simpl; lia). rewrite !bind_ok.
  rewrite Hm, Hs, Hf.
  repeat (rewrite !bind_ok;
          rewrite bytearray_set_bcd by (rewrite ?length_insert; simpl; lia)).
  rewrite !bind_ok.
  edestruct (track_loop lines (TrackState 1 (header_of N e) (replicate 10 0)) msfs)
    as [buf Hrun]; [|exact Htracks|].
  { unfold good_buf. cbn. eauto 10. }
  change (header_of N e) with
    (<[29%nat:=bcd e.2]> (<[28%nat:=bcd e.1.2]> (<[27%nat:=bcd e.1.1]>
       (<[17%nat:=bcd N]> _toc_header)))) in Hrun.
  rewrite Hrun. reflexivity.
Qed.

Lemma cu2_five_declared_readable :
  readable cu2_five_declared 5 (1, 2, 3) [(0, 2, 0)].
Proof.
  unfold cu2_five_declared. split.
  - repeat (apply List.Forall_cons;
              [intros H; first [ discriminate H | exists 5; vm_compute; reflexivity ]|]).
    apply List.Forall_nil.
  - exists ("ntracks 5" ++ nl)%string. split; vm_compute; reflexivity.
  - exists ("trk end   01:02:03" ++ nl)%string. split; vm_compute; reflexivity.
  - change (List.filter is_track_line _) with ["data1     00:02:00" ++ nl]%string.
    repeat (apply List.Forall2_cons; [vm_compute; reflexivity|]).
    apply List.Forall2_nil.
Qed.


End TocMore.







(** ** Memory cards: the images and the sorting of the input files *)

Section MemoryCardMore.
Import MemoryCard More.

Lemma check_memory_card_found (fs : filesystem) (f : string) r :
  check_memory_card fs f = Ok r -> exists d, fs !! f = Some d.
Proof.
  unfold check_memory_card, st_size. destruct (fs !! f) as [d|]; [eauto|discriminate].
Qed.

Lemma images_length (off n : nat) (d : list Z) :
  (off + n * MC_SIZE <= length d)%nat ->
  Forall (fun img => length img = MC_SIZE) (images off n d).
Proof.
  revert off. induction n as [|n IH]; intros off Hlen; cbn [images].
  - apply List.Forall_nil.
  - apply List.Forall_cons.
    + rewrite length_slice; lia.
    + apply IH. lia.
Qed.

Lemma length_images (off n : nat) (d : list Z) : length (images off n d) = n.
Proof. revert off. induction n as [|n IH]; intros off; cbn [images length]; auto. Qed.

Lemma sort_input_cases (fs : filesystem) (st : inputs) (f : string) (d : list Z) :
  fs !! f = Some d ->
  sort_input fs st f =
    Ok (if is_card_size (length d)
        then Inputs (mem_cards st ++ cards_of d) (disc_files st)
        else Inputs (mem_cards st) (disc_files st ++ [f])).
Proof.
  intros Hf. unfold sort_input.
  rewrite (st_size_found _ _ _ Hf), bind_ok, (check_memory_card_cases _ _ _ Hf).
  unfold is_card_size, cards_of, recognized.
  cbn [existsb List.find fst snd orb].
  destruct (Z.leb_spec (Z.of_nat (length d)) 262144);
    decide_size; cbn [orb fst snd images truthy default bind_ok]; try reflexivity; lia.
Qed.

End MemoryCardMore.

(** X6.  Whatever [check_memory_card] returns as images is one or two
    images, each of exactly 131072 bytes ([MC_SIZE]). *)
Theorem card_images_have_card_size (fs : filesystem) (f : string)
    (imgs : list (list Z)) :
  MemoryCard.check_memory_card fs f = Ok (Some imgs) ->
  (length imgs = 1%nat \/ length imgs = 2%nat) /\
  Forall (fun img => length img = MemoryCard.MC_SIZE) imgs.
Proof.
  intros Hc. destruct (check_memory_card_found _ _ _ Hc) as [d Hf].
  rewrite (check_memory_card_cases _ _ _ Hf) in Hc. revert Hc.
  assert (Hgen : forall off n,
             (n = 1 \/ n = 2)%nat ->
             (off + n * MemoryCard.MC_SIZE <= length d)%nat ->
             Ok (Some (MemoryCard.images off n d)) = Ok (Some imgs) ->
             (length imgs = 1%nat \/ length imgs = 2%nat) /\
             Forall (fun img => length img = MemoryCard.MC_SIZE) imgs).
  { intros off n Hn Hle.
    pose proof (images_length off n d Hle) as Hall.
    pose proof (length_images off n d) as Hcount.
    generalize dependent (MemoryCard.images off n d). intros l Hall Hcount [= <-].
    split; [lia|exact Hall]. }
  decide_size; first [discriminate | apply Hgen; unfold MemoryCard.MC_SIZE; lia].
Qed.

Lemma card_images_have_card_size_witness :
  (length (MemoryCard.images 0 2 MemoryCard.two_card_dump) = 1%nat \/
   length (MemoryCard.images 0 2 MemoryCard.two_card_dump) = 2%nat) /\
  Forall (fun img => length img = MemoryCard.MC_SIZE)
         (MemoryCard.images 0 2 MemoryCard.two_card_dump).
Proof.
  apply (card_images_have_card_size MemoryCard.fs_two_cards "card.mcd").
  pose proof (check_memory_card_cases MemoryCard.fs_two_cards "card.mcd"
                MemoryCard.two_card_dump (lookup_singleton_eq _ _)) as H.
  rewrite H. unfold MemoryCard.two_card_dump. rewrite length_replicate.
  decide_size. reflexivity.
Defined.

(** X7.  The size guard in front of [check_memory_card] keeps no recognized
    dump out: in a round of the main loop, a file of one of the five
    recognized sizes has its images appended, in order, to the memory cards
    collected so far, and the round ends there ([continue]): the file is not
    handed to the disc-image path. *)
Theorem recognized_dump_is_collected (fs : filesystem) (st : MemoryCard.inputs)
    (f : string) (d : list Z) :
  fs !! f = Some d ->
  Z.of_nat (length d) ∈ [131072; 131200; 131136; 262144; 134976] ->
  exists imgs,
    MemoryCard.check_memory_card fs f = Ok (Some imgs) /\
    imgs <> [] /\
    MemoryCard.sort_input fs st f =
      Ok (MemoryCard.Inputs (MemoryCard.mem_cards st ++ imgs)
                            (MemoryCard.disc_files st)).
Proof.
  intros Hf Hsz.
  rewrite (sort_input_cases fs st f d Hf), (check_memory_card_cases fs f d Hf).
  unfold More.is_card_size, More.cards_of, MemoryCard.recognized.
  cbn [existsb List.find fst snd].
  rewrite !elem_of_cons, elem_of_nil in Hsz.
  decide_size; cbn [orb fst snd MemoryCard.images];
    first [ by eexists | exfalso; tauto ].
Qed.

Lemma recognized_dump_is_collected_witness :
  exists imgs,
    MemoryCard.check_memory_card MemoryCard.fs_two_cards "card.mcd" = Ok (Some imgs) /\
    imgs <> [] /\
    MemoryCard.sort_input MemoryCard.fs_two_cards (MemoryCard.Inputs [] []) "card.mcd" =
      Ok (MemoryCard.Inputs ([] ++ imgs) []).
Proof.
  apply (recognized_dump_is_collected MemoryCard.fs_two_cards (MemoryCard.Inputs [] [])
           "card.mcd" MemoryCard.two_card_dump (lookup_singleton_eq _ _)).
  unfold MemoryCard.two_card_dump. rewrite length_replicate, !elem_of_cons.
  right. right. right. left. lia.
Defined.
(** X8.  A card made by [create_blank_mc] is recognized by
    [check_memory_card] as one image, which is the whole file, whatever the
    path held before; and reading any other file is not affected. *)
Theorem blank_card_is_recognized (fs : filesystem) (mc : string) :
  exists img,
    MemoryCard.create_blank_mc fs mc !! mc = Some img /\
    MemoryCard.check_memory_card (MemoryCard.create_blank_mc fs mc) mc
      = Ok (Some [img]) /\
    (forall d, MemoryCard.create_blank_mc (<[mc := d]> fs) mc
               = MemoryCard.create_blank_mc fs mc) /\
    (forall f, f <> mc ->
       MemoryCard.check_memory_card (MemoryCard.create_blank_mc fs mc) f
         = MemoryCard.check_memory_card fs f).
Proof.
  exists (f_data (MemoryCard.blank_writes (File [] 0))).
  assert (Hmc : MemoryCard.create_blank_mc fs mc !! mc
                = Some (f_data (MemoryCard.blank_writes (File [] 0))))
    by apply lookup_insert_eq.
  split; [exact Hmc|]. split; [|split].
  - rewrite (check_memory_card_cases _ _ _ Hmc), blank_image_length.
    decide_size. cbn [MemoryCard.images]. unfold slice.
    rewrite drop_0, take_ge; [reflexivity|].
    rewrite blank_image_length. unfold MemoryCard.MC_SIZE. lia.
  - intros d. unfold MemoryCard.create_blank_mc. apply insert_insert_eq.
  - intros f Hne. unfold MemoryCard.check_memory_card, st_size, open_existing,
      MemoryCard.create_blank_mc.
    rewrite lookup_insert_ne by congruence. reflexivity.
Qed.

(** ** The automatic patch: files without a hit, and unusable magic words *)

Section LibcryptMore.
Import Libcrypt.

#[local] Opaque WINDOW.

Lemma auto_loop_step (fuel : nat) (mw : Z) (data : list Z) (pos : nat)
    (out : list string) :
  auto_loop (S fuel) mw (File data pos) out =
    let buf := take WINDOW (drop pos data) in
    let f := File data (pos + length buf) in
    match buf with
    | [] => Finished f out
    | _ :: _ =>
        match bytes_find signature buf with
        | Some (S p) =>
            match (buf' ← pack_into_H buf (S p) mw;
                   pack_into_H buf' (S p + 2) 0x34c6) with
            | Ok buf' =>
                auto_loop fuel mw (f_write buf' (f_seek pos f))
                          (out ++ [found_signature])
            | Raise e => Failed f (out ++ [found_signature]) e
            end
        | _ => auto_loop fuel mw f out
        end
    end.
Proof. reflexivity. Qed.

Lemma window_0 (l : list Z) : window 0 l = take WINDOW l.
Proof. reflexivity. Qed.

Lemma window_S (j : nat) (l : list Z) : window (S j) l = window j (drop WINDOW l).
Proof.
  unfold window. rewrite drop_drop. reflexivity.
Qed.

Lemma next_window (data : list Z) (pos : nat) :
  let pos' := (pos + length (take WINDOW (drop pos data)))%nat in
  (pos <= length data)%nat ->
  drop pos' data = drop WINDOW (drop pos data) /\
  (pos' <= length data)%nat /\
  (take WINDOW (drop pos data) <> [] -> (pos < pos')%nat).
Proof.
  intros pos' Hpos. subst pos'. split; [apply drop_window|].
  rewrite length_take, length_drop. split; [lia|].
  intros Hne. destruct (take WINDOW (drop pos data)) eqn:E; [done|].
  apply (f_equal length) in E. rewrite length_take, length_drop in E.
  cbn [length] in E. lia.
Qed.

(** The loop runs to the end of a file in which no window has a hit at a
    positive offset, whatever the magic word. *)
Lemma auto_loop_quiet (fuel : nat) (mw : Z) (data : list Z) (pos : nat)
    (out : list string) :
  (pos <= length data)%nat -> (length data - pos < fuel)%nat ->
  (forall j p, bytes_find signature (window j (drop pos data)) <> Some (S p)) ->
  auto_loop fuel mw (File data pos) out = Finished (File data (length data)) out.
Proof.
  revert pos. induction fuel as [|fuel IH]; intros pos Hpos Hfuel Hq; [lia|].
  rewrite auto_loop_step. cbv zeta.
  destruct (next_window data pos Hpos) as (Hdrop & Hle & Hlt).
  pose proof (Hq 0%nat) as H0. rewrite window_0 in H0.
  destruct (take WINDOW (drop pos data)) as [|z buf] eqn:E.
  - assert (Hnil : drop pos data = []).
    { destruct (drop pos data); [done|]. pose proof WINDOW_pos.
      destruct WINDOW; [lia|discriminate E]. }
    apply (f_equal length) in Hnil. rewrite length_drop in Hnil.
    cbn [length] in *. do 2 f_equal. lia.
  - assert (Hnext : auto_loop fuel mw (File data (pos + length (z :: buf))) out
                    = Finished (File data (length data)) out).
    { apply IH; [exact Hle| specialize (Hlt ltac:(done)); lia |].
      intros j p. rewrite Hdrop, <- window_S. apply Hq. }
    destruct (bytes_find signature (z :: buf)) as [[|p]|]; [exact Hnext| |exact Hnext].
    by destruct (H0 p).
Qed.

Lemma pack_into_H_bad (buf : list Z) (pos : nat) (v : Z) :
  ~ (0 <= v <= 0xFFFF) -> pack_into_H buf pos v = Raise StructError.
Proof.
  intros Hv. unfold pack_into_H.
  destruct (Z.leb_spec 0 v), (Z.leb_spec v 0xFFFF); try reflexivity. lia.
Qed.

(** With a magic word that does not fit 16 bits the loop stops at the first
    hit at a positive offset, before anything is written. *)
Lemma auto_loop_bad (j fuel : nat) (mw : Z) (data : list Z) (pos p : nat)
    (out : list string) :
  ~ (0 <= mw <= 0xFFFF) ->
  (pos <= length data)%nat -> (length data - pos < fuel)%nat ->
  (forall i q, (i < j)%nat ->
     bytes_find signature (window i (drop pos data)) <> Some (S q)) ->
  bytes_find signature (window j (drop pos data)) = Some (S p) ->
  exists pos',
    auto_loop fuel mw (File data pos) out
      = Failed (File data pos') (out ++ [found_signature]) StructError.
Proof.
  intros Hmw. revert fuel pos.
  induction j as [|j IH]; intros fuel pos Hpos Hfuel Hq Hhit;
    (destruct fuel as [|fuel]; [lia|]); rewrite auto_loop_step; cbv zeta;
    destruct (next_window data pos Hpos) as (Hdrop & Hle & Hlt).
  - rewrite window_0 in Hhit.
    destruct (take WINDOW (drop pos data)) as [|z buf] eqn:E; [discriminate Hhit|].
    rewrite Hhit, pack_into_H_bad by exact Hmw. eexists. reflexivity.
  - pose proof (Hq 0%nat) as H0. rewrite window_0 in H0.
    rewrite window_S, <- Hdrop in Hhit.
    destruct (take WINDOW (drop pos data)) as [|z buf] eqn:E.
    + exfalso. assert (Hnil : drop pos data = []).
      { destruct (drop pos data); [done|]. pose proof WINDOW_pos.
        destruct WINDOW; [lia|discriminate E]. }
      cbn [length] in Hhit. rewrite Nat.add_0_r, Hnil in Hhit.
      unfold window in Hhit. rewrite drop_nil, take_nil in Hhit. discriminate Hhit.
    + assert (Hnext : exists pos',
                auto_loop fuel mw (File data (pos + length (z :: buf))) out
                  = Failed (File data pos') (out ++ [found_signature]) StructError).
      { apply IH; [exact Hle| specialize (Hlt ltac:(done)); lia | |exact Hhit].
        intros i q Hi. rewrite Hdrop, <- window_S. apply Hq. lia. }
      destruct (bytes_find signature (z :: buf)) as [[|q]|]; [exact Hnext| |exact Hnext].
      destruct (H0 q ltac:(lia)). reflexivity.
Qed.

End LibcryptMore.

(** X9.  When no window of the image has the signature at a positive
    offset, the automatic patch leaves every file as it was and reports no
    error, for any magic word; a signature that sits at the very start of a
    window is such a case. *)
Theorem auto_patch_without_hit (img : string) (mw : Z) (w : Libcrypt.world)
    (data : list Z) :
  Libcrypt.w_fs w !! img = Some data ->
  (forall j p,
     Libcrypt.bytes_find Libcrypt.signature (Libcrypt.window j data) <> Some (S p)) ->
  exists out,
    Libcrypt.apply_ppf_auto img mw w
      = Some (Libcrypt.World (Libcrypt.w_fs w) (Libcrypt.w_temp_files w) out, None).
Proof.
  intros Himg Hq. unfold Libcrypt.apply_ppf_auto. cbn [Libcrypt.print Libcrypt.w_fs
    Libcrypt.w_temp_files Libcrypt.w_stdout].
  rewrite (open_existing_found _ _ _ Himg). cbn [f_data].
  rewrite auto_loop_quiet; [| lia | lia | by rewrite drop_0].
  cbn [f_data]. rewrite (insert_id _ _ _ Himg). eexists. reflexivity.
Qed.

Lemma auto_patch_without_hit_witness :
  exists out,
    Libcrypt.apply_ppf_auto "a.bin" 0x1234
      (Libcrypt.World {[ "a.bin"%string := Libcrypt.signature ++ [1; 2] ]} [] [])
      = Some (Libcrypt.World {[ "a.bin"%string := Libcrypt.signature ++ [1; 2] ]} [] out,
              None).
Proof.
  assert (Hq : forall j p,
             Libcrypt.bytes_find Libcrypt.signature
               (Libcrypt.window j (Libcrypt.signature ++ [1; 2])) <> Some (S p)).
  { intros [|j] p; [vm_compute; discriminate|].
    unfold Libcrypt.window. rewrite drop_ge, take_nil; [discriminate|].
    cbn [length app Libcrypt.signature]. unfold Libcrypt.WINDOW. lia. }
  pose proof (auto_patch_without_hit "a.bin" 0x1234
                (Libcrypt.World {[ "a.bin"%string := Libcrypt.signature ++ [1; 2] ]} [] [])
                (Libcrypt.signature ++ [1; 2]) (lookup_singleton_eq _ _) Hq) as H.
  cbn [Libcrypt.w_fs Libcrypt.w_temp_files] in H. exact H.
Defined.

(** X10.  With a magic word outside 0..0xFFFF the automatic patch stops with
    [struct.error] at the first window that has the signature at a positive
    offset, and no file has been changed. *)
Theorem auto_patch_bad_magic_word (img : string) (mw : Z) (w : Libcrypt.world)
    (data : list Z) (j p : nat) :
  ~ (0 <= mw <= 0xFFFF) ->
  Libcrypt.w_fs w !! img = Some data ->
  (forall i q, (i < j)%nat ->
     Libcrypt.bytes_find Libcrypt.signature (Libcrypt.window i data) <> Some (S q)) ->
  Libcrypt.bytes_find Libcrypt.signature (Libcrypt.window j data) = Some (S p) ->
  exists out,
    Libcrypt.apply_ppf_auto img mw w
      = Some (Libcrypt.World (Libcrypt.w_fs w) (Libcrypt.w_temp_files w) out,
              Some StructError).
Proof.
  intros Hmw Himg Hq Hhit. unfold Libcrypt.apply_ppf_auto.
  cbn [Libcrypt.print Libcrypt.w_fs Libcrypt.w_temp_files Libcrypt.w_stdout].
  rewrite (open_existing_found _ _ _ Himg). cbn [f_data].
  match goal with
  | |- context [Libcrypt.auto_loop _ _ _ ?o] =>
      destruct (auto_loop_bad j (S (length data)) mw data 0 p o Hmw) as [pos' Hrun];
        [lia | lia | by rewrite drop_0 | by rewrite drop_0 |]
  end.
  rewrite Hrun. cbn [f_data]. rewrite (insert_id _ _ _ Himg). eexists. reflexivity.
Qed.

Lemma auto_patch_bad_magic_word_witness :
  exists out,
    Libcrypt.apply_ppf_auto "a.bin" 0x10000
      (Libcrypt.World {[ "a.bin"%string := Libcrypt.two_signatures ]} [] [])
      = Some (Libcrypt.World {[ "a.bin"%string := Libcrypt.two_signatures ]} [] out,
              Some StructError).
Proof.
  assert (Hmw : ~ (0 <= 0x10000 <= 0xFFFF)) by lia.
  assert (Hq : forall i q : nat, (i < 0)%nat ->
             Libcrypt.bytes_find Libcrypt.signature
               (Libcrypt.window i Libcrypt.two_signatures) <> Some (S q))
    by (intros i q Hi; lia).
  assert (Hhit : Libcrypt.bytes_find Libcrypt.signature
                   (Libcrypt.window 0 Libcrypt.two_signatures) = Some 1%nat)
    by (vm_compute; reflexivity).
  pose proof (auto_patch_bad_magic_word "a.bin" 0x10000
                (Libcrypt.World {[ "a.bin"%string := Libcrypt.two_signatures ]} [] [])
                Libcrypt.two_signatures 0 0 Hmw (lookup_singleton_eq _ _) Hq Hhit) as H.
  cbn [Libcrypt.w_fs Libcrypt.w_temp_files] in H. exact H.
Defined.

(** ** Copying files *)

Section CopyFileMore.
Import More.

Lemma CHUNK_pos : (0 < CHUNK)%nat.
Proof. unfold CHUNK. lia. Qed.

#[local] Opaque CHUNK.

Lemma take_some_more (n : nat) (data : list Z) (pos : nat) :
  (pos <= length data)%nat ->
  take pos data ++ take n (drop pos data) =
  take (pos + length (take n (drop pos data))) data.
Proof.
  intros Hpos.
  assert (Hn : take (length (take n (drop pos data))) (drop pos data) =
               take n (drop pos data)).
  { rewrite length_take.
    destruct (Nat.le_gt_cases n (length (drop pos data))).
    - by rewrite Nat.min_l by lia.
    - rewrite Nat.min_r by lia. by rewrite !take_ge by lia. }
  revert Hn. generalize (length (take n (drop pos data))). intros k Hk.
  rewrite <- (take_drop pos data) at 3.
  rewrite take_app_add' by (rewrite length_take; lia).
  by rewrite Hk.
Qed.

Lemma contents_found (fs : filesystem) (f : string) (d : list Z) :
  fs !! f = Some d -> contents fs f = d.
Proof. intros H. unfold contents. by rewrite H. Qed.

Lemma copy_loop_step (fuel : nat) (inp oup : string) (ipos opos : nat)
    (fs : filesystem) :
  copy_loop (S fuel) inp oup ipos opos fs =
    let buf := take CHUNK (drop ipos (contents fs inp)) in
    match buf with
    | [] => Some fs
    | _ :: _ =>
        let o := f_write buf (File (contents fs oup) opos) in
        copy_loop fuel inp oup (ipos + length buf) (f_pos o) (<[oup := f_data o]> fs)
    end.
Proof. reflexivity. Qed.

(** Appending a chunk to what has been copied so far. *)
Lemma write_chunk (d buf : list Z) (pos : nat) :
  (pos <= length d)%nat ->
  f_write buf (File (take pos d) pos) = File (take pos d ++ buf) (pos + length buf).
Proof.
  intros Hpos. unfold f_write. cbn [f_data f_pos].
  rewrite length_take, Nat.min_l by exact Hpos.
  rewrite Nat.sub_diag. cbn [replicate]. rewrite app_nil_r.
  rewrite take_take, Nat.min_id.
  rewrite (drop_ge (take pos d)) by (rewrite length_take; lia).
  by rewrite app_nil_r.
Qed.

Lemma copy_loop_spec (fuel : nat) (inp oup : string) (d : list Z) (pos : nat)
    (fs : filesystem) :
  inp <> oup -> fs !! inp = Some d -> fs !! oup = Some (take pos d) ->
  (pos <= length d)%nat -> (length d - pos < fuel)%nat ->
  copy_loop fuel inp oup pos pos fs = Some (<[oup := d]> fs).
Proof.
  intros Hne. revert pos fs.
  induction fuel as [|fuel IH]; intros pos fs Hinp Houp Hpos Hfuel; [lia|].
  rewrite copy_loop_step. cbv zeta.
  rewrite (contents_found _ _ _ Hinp), (contents_found _ _ _ Houp).
  pose proof (take_some_more CHUNK d pos Hpos) as Htake.
  assert (Hlen : length (take CHUNK (drop pos d)) = Nat.min CHUNK (length d - pos))
    by (by rewrite length_take, length_drop).
  destruct (take CHUNK (drop pos d)) as [|z buf] eqn:E.
  - pose proof CHUNK_pos. cbn [length] in Hlen.
    assert (pos = length d) as -> by lia.
    rewrite firstn_all in Houp. by rewrite (insert_id _ _ _ Houp).
  - rewrite (write_chunk d (z :: buf) pos Hpos). cbn [f_pos f_data].
    rewrite Htake, IH.
    + by rewrite insert_insert_eq.
    + rewrite lookup_insert_ne by congruence. exact Hinp.
    + apply lookup_insert_eq.
    + rewrite Hlen. lia.
    + rewrite Hlen. cbn [length] in Hlen. lia.
Qed.

End CopyFileMore.

(** X11.  [copy_file] makes the output an exact copy of the input, in
    however many chunks of 1 MiB the input is read, and changes no other
    file; the loop always ends. *)
Theorem copy_file_copies (inp oup : string) (fs : filesystem) (d : list Z) :
  fs !! inp = Some d -> inp <> oup ->
  More.copy_file inp oup fs = Some (<[oup := d]> fs, None).
Proof.
  intros Hinp Hne. unfold More.copy_file. rewrite Hinp.
  rewrite (copy_loop_spec _ inp oup d 0 (<[oup := []]> fs) Hne);
    [by rewrite insert_insert_eq | | | lia | lia].
  - rewrite lookup_insert_ne by congruence. exact Hinp.
  - rewrite take_0. apply lookup_insert_eq.
Qed.

Lemma copy_file_copies_witness :
  More.copy_file "a.bin" "b.bin" {[ "a.bin"%string := [1; 2; 3] ]}
    = Some (<["b.bin"%string := [1; 2; 3]]> {[ "a.bin"%string := [1; 2; 3] ]}, None).
Proof.
  apply (copy_file_copies "a.bin" "b.bin" _ [1; 2; 3]);
    [apply lookup_singleton_eq | discriminate].
Defined.

(** X12.  Copying a file onto itself empties it: the output is truncated
    when it is opened, so the first read finds nothing.  A missing input
    raises [FileNotFoundError] before the output is created. *)
Theorem copy_file_same_path (p oup : string) (fs : filesystem) :
  (forall d, fs !! p = Some d ->
     More.copy_file p p fs = Some (<[p := []]> fs, None)) /\
  (fs !! p = None ->
     More.copy_file p oup fs = Some (fs, Some FileNotFoundError)).
Proof.
  split.
  - intros d Hp. unfold More.copy_file. rewrite Hp.
    rewrite copy_loop_step. cbv zeta.
    rewrite (contents_found _ p []) by apply lookup_insert_eq.
    rewrite drop_nil, take_nil. reflexivity.
  - intros Hp. unfold More.copy_file. by rewrite Hp.
Qed.

Lemma copy_file_same_path_witness :
  More.copy_file "a.bin" "a.bin" {[ "a.bin"%string := [1; 2; 3] ]}
    = Some (<["a.bin"%string := []]> {[ "a.bin"%string := [1; 2; 3] ]}, None).
Proof.
  apply (proj1 (copy_file_same_path "a.bin" "a.bin" {[ "a.bin"%string := [1; 2; 3] ]})
               [1; 2; 3]).
  apply lookup_singleton_eq.
Defined.

(** ** Paths beside the image *)

Section CreatePathMore.
Import More.

Lemma split_on_cons (c : ascii) (s : string) :
  exists x xs, split_on c s = x :: xs.
Proof.
  induction s as [|a s (x & xs & IH)]; cbn [split_on]; [eauto|].
  destruct (Ascii.eqb a c); [eauto|]. rewrite IH. eauto.
Qed.

Lemma append_nil_l (s : string) : ("" ++ s)%string = s.
Proof. reflexivity. Qed.

Lemma append_cons_l (x : ascii) (a s : string) :
  (String x a ++ s)%string = String x (a ++ s).
Proof. reflexivity. Qed.

Lemma split_on_app (c : ascii) (a b : string) :
  split_on c (a ++ String c b) = split_on c a ++ split_on c b.
Proof.
  induction a as [|x a IH].
  - rewrite append_nil_l. cbn [split_on app]. by rewrite Ascii.eqb_refl.
  - rewrite append_cons_l. cbn [split_on].
    destruct (Ascii.eqb x c); [by rewrite IH|].
    rewrite IH. destruct (split_on_cons c a) as (y & ys & ->). reflexivity.
Qed.

Lemma split_on_none (c : ascii) (s : string) :
  c ∉ chars s -> split_on c s = [s].
Proof.
  induction s as [|a s IH]; intros Hc; [done|].
  unfold chars in *. cbn [list_ascii_of_string split_on] in *.
  apply not_elem_of_cons in Hc as [Hne Hc].
  destruct (Ascii.eqb_spec a c); [congruence|]. by rewrite IH.
Qed.

Lemma join_split_on (c : ascii) (s : string) :
  join (String c EmptyString) (split_on c s) = s.
Proof.
  induction s as [|a s IH]; [done|]. cbn [split_on].
  destruct (split_on_cons c s) as (y & ys & Hs). rewrite Hs in *.
  destruct (Ascii.eqb_spec a c) as [->|Hne].
  - cbn [join] in *. by rewrite append_nil_l, append_cons_l, append_nil_l, IH.
  - cbn [join] in *.
    destruct ys; [by rewrite IH | rewrite (append_cons_l a y); by rewrite IH].
Qed.

Lemma length_split_on_none (c : ascii) (s : string) :
  c ∉ chars s -> length (split_on c s) = 1%nat.
Proof. intros H. by rewrite split_on_none. Qed.

End CreatePathMore.

(** X13.  [create_path bin f] names [f] in the directory of [bin]: when
    [bin] is [dir/base] with no [/] in [base], the result is [dir/f], for
    any [dir] (also the empty one and one holding further [/]); when [bin]
    has no [/] at all, the result is [f] itself. *)
Theorem create_path_beside (bin f : string) :
  (forall dir base, bin = (dir ++ "/" ++ base)%string ->
     "/"%char ∉ More.chars base ->
     More.create_path bin f = (dir ++ "/" ++ f)%string) /\
  ("/"%char ∉ More.chars bin -> More.create_path bin f = f).
Proof.
  split.
  - intros dir base -> Hbase. unfold More.create_path. cbv zeta.
    change ("/" ++ base)%string with (String "/" base).
    rewrite split_on_app, (split_on_none _ _ Hbase).
    destruct (split_on_cons "/" dir) as (x & xs & Hs).
    rewrite length_app, removelast_last, join_split_on.
    rewrite Hs. cbn [length]. destruct (Nat.ltb_spec 1 (S (length xs) + 1)); [done|lia].
  - intros Hbin. unfold More.create_path. cbv zeta.
    by rewrite (split_on_none _ _ Hbin).
Qed.

Lemma create_path_beside_witness :
  More.create_path "/roms/ff7/disc1.cue" "GAME_ID" = "/roms/ff7/GAME_ID"%string.
Proof.
  apply (proj1 (create_path_beside "/roms/ff7/disc1.cue" "GAME_ID")
               "/roms/ff7"%string "disc1.cue"%string); [reflexivity|].
  unfold More.chars. cbn [list_ascii_of_string].
  rewrite !not_elem_of_cons. repeat split; try discriminate. apply not_elem_of_nil.
Defined.

(** ** File names in a cue sheet *)

Section FileNameMore.
Import More.






Lemma prefix_app (a b : string) : String.prefix a (a ++ b) = true.
Proof.
  induction a as [|c a IH]; [by destruct b|].
  rewrite append_cons_l. cbn [String.prefix]. by destruct (ascii_dec c c).
Qed.

Lemma str_drop_app (a b : string) (k : nat) :
  (k <= String.length a)%nat -> str_drop k (a ++ b) = (str_drop k a ++ b)%string.
Proof.
  revert k. induction a as [|c a IH]; intros [|k] Hk; cbn [String.length] in Hk;
    try reflexivity; try lia.
  rewrite append_cons_l. cbn [str_drop]. apply IH. lia.
Qed.

Lemma str_drop_all (a : string) : str_drop (String.length a) a = EmptyString.
Proof. induction a; [done|]. cbn [String.length str_drop]. done. Qed.



(** The first occurrence of [sub] in [a ++ b] is at the end of [a] when
    [b] starts with [sub] and [sub] starts nowhere inside [a]. *)
Lemma index_app_first (sub a b : string) :
  (forall k, (k < String.length a)%nat ->
             String.prefix sub (str_drop k (a ++ b)) = false) ->
  String.prefix sub b = true ->
  index 0 sub (a ++ b) = Some (String.length a).
Proof.
  intros Hno Hb. induction a as [|c a IH].
  - rewrite append_nil_l. destruct b as [|d b]; cbn [index].
    + destruct sub; [done|discriminate Hb].
    + by rewrite Hb.
  - pose proof (Hno 0%nat ltac:(cbn [String.length]; lia)) as H0.
    cbn [str_drop] in H0. rewrite append_cons_l in *.
    cbn [index]. rewrite H0, IH; [done|].
    intros k Hk. specialize (Hno (S k) ltac:(cbn [String.length]; lia)).
    exact Hno.
Qed.

Lemma index_none_prefix (sub s : string) (k : nat) :
  index 0 sub s = None -> String.prefix sub (str_drop k s) = false.
Proof.
  revert k. induction s as [|c s IH]; intros k Hnone.
  - destruct sub; [discriminate Hnone|]. by destruct k.
  - cbn [index] in Hnone.
    destruct (String.prefix sub (String c s)) eqn:Hp; [discriminate Hnone|].
    destruct (index 0 sub s); [discriminate Hnone|].
    destruct k as [|k]; [exact Hp|]. cbn [str_drop]. by apply IH.
Qed.



Lemma last_char_snoc (a : string) (c : ascii) :
  last_char (a ++ String c EmptyString) = Some c.
Proof.
  induction a as [|d a IH]; [done|].
  rewrite append_cons_l. cbn [last_char]. rewrite IH.
  by destruct a.
Qed.



Lemma append_assoc (a b c : string) : ((a ++ b) ++ c = a ++ (b ++ c))%string.
Proof.
  induction a as [|x a IH]; [done|]. by rewrite !append_cons_l, IH.
Qed.

Lemma length_append (a b : string) :
  String.length (a ++ b) = (String.length a + String.length b)%nat.
Proof.
  induction a as [|x a IH]; [done|]. rewrite append_cons_l.
  cbn [String.length]. by rewrite IH.
Qed.


End FileNameMore.
Section FileNameTheorems.
Import More.








End FileNameTheorems.




(** X16.  [get_imgs_from_bin] returns one path per [FILE] line of the cue
    sheet, in the order of the lines: the name [get_file_name] finds on the
    line, placed beside the cue sheet as [create_path] does; all other
    lines are ignored. *)
Theorem get_imgs_from_bin_in_order (cue text : string) (names : list string) :
  Forall2 (fun line name => More.get_file_name line = More.Name name)
          (List.filter More.is_file_line (Toc.readlines text)) names ->
  More.get_imgs_from_bin cue text = inr (map (More.create_path cue) names).
Proof.
  unfold More.get_imgs_from_bin. generalize (Toc.readlines text). intros lines.
  revert names. induction lines as [|line lines IH]; intros names Hall.
  - cbn [List.filter] in Hall. apply Forall2_nil_inv_l in Hall as ->. reflexivity.
  - cbn [List.filter More.imgs_from_lines] in *.
    destruct (More.is_file_line line); [|by apply IH].
    apply Forall2_cons_inv_l in Hall as (name & names' & Hname & Hall & ->).
    rewrite Hname, (IH names' Hall). reflexivity.
Qed.

Lemma get_imgs_from_bin_in_order_witness :
  More.get_imgs_from_bin "/roms/ff7/disc1.cue" More.cue_one_file
    = inr (map (More.create_path "/roms/ff7/disc1.cue") ["disc 1.bin"%string]).
Proof.
  apply (get_imgs_from_bin_in_order "/roms/ff7/disc1.cue" More.cue_one_file
           ["disc 1.bin"%string]).
  assert (Hlines : List.filter More.is_file_line (Toc.readlines More.cue_one_file)
                   = [("FILE " ++ String More.dquote
                         ("disc 1.bin" ++ String More.dquote (" BINARY" ++ TocSpec.nl)))%string])
    by (vm_compute; reflexivity).
  rewrite Hlines.
  apply List.Forall2_cons; [vm_compute; reflexivity|apply List.Forall2_nil].
Defined.

(** ** The game id of a disc *)

Section GameIdMore.
Import More.

(** A two-character pattern cannot match across the start of a text that
    begins with its own first character twice over. *)
Lemma prefix_blocked_pair (x y q : ascii) (t rest : string) :
  q <> y -> t <> EmptyString ->
  String.prefix (String x (String y "")) t = false ->
  String.prefix (String x (String y "")) (t ++ String q rest) = false.
Proof.
  intros Hq Ht Hp. destruct t as [|d t]; [done|]. rewrite append_cons_l.
  cbn [String.prefix] in *. destruct (ascii_dec x d); [|done].
  destruct t as [|d' t].
  - rewrite append_nil_l. cbn [String.prefix].
    destruct (ascii_dec y q); [congruence|done].
  - rewrite append_cons_l. cbn [String.prefix] in *.
    destruct (ascii_dec y d'); [|done].
    destruct t; discriminate Hp.
Qed.

Lemma str_drop_nonempty (s : string) (k : nat) :
  (k < String.length s)%nat -> str_drop k s <> EmptyString.
Proof.
  revert k. induction s as [|c s IH]; intros k Hk; cbn [String.length] in Hk; [lia|].
  destruct k as [|k]; [done|]. cbn [str_drop]. apply IH. lia.
Qed.

Lemma substring_head (y z : string) : substring 0 (String.length y) (y ++ z) = y.
Proof.
  induction y as [|c y IH]; [by destruct z|].
  rewrite append_cons_l. cbn [String.length substring]. by rewrite IH.
Qed.

Lemma substring_mid (x y z : string) :
  substring (String.length x) (String.length y) (x ++ y ++ z) = y.
Proof.
  induction x as [|c x IH]; [exact (substring_head y z)|].
  rewrite append_cons_l. cbn [String.length substring]. exact IH.
Qed.

Lemma py_slice_mid (x y z : string) :
  py_slice (Z.of_nat (String.length x))
           (Z.of_nat (String.length x) + Z.of_nat (String.length y)) (x ++ y ++ z) = y.
Proof.
  unfold py_slice, py_bound. cbv zeta. rewrite !length_append.
  destruct (Z.ltb_spec (Z.of_nat (String.length x)) 0); [lia|].
  destruct (Z.ltb_spec (Z.of_nat (String.length x) + Z.of_nat (String.length y)) 0);
    [lia|].
  rewrite !Z.min_l by lia.
  replace (Z.to_nat (Z.of_nat (String.length x))) with (String.length x) by lia.
  replace (Z.to_nat (_ + _ - _)) with (String.length y) by lia.
  apply substring_mid.
Qed.

Lemma find_semicolon (mid id rest : string) :
  MagicWord.py_find ";1" (mid ++ id) = None ->
  find_Z ";1" ("cdrom:" ++ mid ++ id ++ ";1" ++ rest)
    = Z.of_nat (String.length ("cdrom:" ++ mid)%string) + Z.of_nat (String.length id).
Proof.
  intros Hnone. unfold find_Z, MagicWord.py_find in *.
  replace ("cdrom:" ++ mid ++ id ++ ";1" ++ rest)%string
    with (("cdrom:" ++ mid ++ id) ++ ";1" ++ rest)%string
    by (by rewrite !append_assoc).
  rewrite index_app_first; [rewrite !length_append; lia| |apply prefix_app].
  intros k Hk.
  do 6 (destruct k as [|k]; [reflexivity|]).
  change (str_drop (S (S (S (S (S (S k))))))
            (("cdrom:" ++ mid ++ id) ++ ";1" ++ rest)%string)
    with (str_drop k ((mid ++ id) ++ ";1" ++ rest)%string).
  rewrite !length_append in Hk. cbn [String.length] in Hk.
  rewrite str_drop_app by (rewrite length_append; lia).
  apply prefix_blocked_pair; [discriminate| |by apply index_none_prefix].
  apply str_drop_nonempty. rewrite length_append. lia.
Qed.

Lemma upper_char_ascii (c : ascii) :
  (nat_of_ascii c < 128)%nat -> exists c', upper_char c = Some c'.
Proof.
  intros Hc. unfold upper_char. cbv zeta.
  destruct (Nat.leb_spec 128 (nat_of_ascii c)); [lia|eauto].
Qed.

Lemma game_id_of_standard (buf mid rest a b c : string) (s1 s2 : ascii) (i : nat) :
  MagicWord.py_find "cdrom:" buf = Some i ->
  py_slice (Z.of_nat i) (Z.of_nat i + 50) buf =
    ("cdrom:" ++ mid ++ (a ++ String s1 (b ++ String s2 c)) ++ ";1" ++ rest)%string ->
  String.length a = 4%nat -> String.length b = 3%nat -> String.length c = 2%nat ->
  Forall (fun ch => (nat_of_ascii ch < 128)%nat)
         (chars (a ++ String s1 (b ++ String s2 c))) ->
  MagicWord.py_find ";1" (mid ++ a ++ String s1 (b ++ String s2 c)) = None ->
  exists id,
    game_id_of buf = Some (Ok id) /\
    upper (a ++ b ++ c) = Some id /\
    String.length id = 9%nat.
Proof.
  intros Hfind Hwin Ha Hb Hc Hascii Hnone. unfold game_id_of. cbv zeta.
  assert (Hidx : find_Z "cdrom:" buf = Z.of_nat i) by (unfold find_Z; by rewrite Hfind).
  rewrite Hidx. destruct (Z.ltb_spec (Z.of_nat i) 0); [lia|].
  rewrite Hwin, (find_semicolon mid _ rest Hnone).
  set (id := (a ++ String s1 (b ++ String s2 c))%string) in *.
  assert (Hid : String.length id = 11%nat).
  { subst id. rewrite length_append. cbn [String.length]. rewrite length_append.
    cbn [String.length]. lia. }
  replace (Z.of_nat (String.length ("cdrom:" ++ mid)%string) + Z.of_nat (String.length id) - 11)
    with (Z.of_nat (String.length ("cdrom:" ++ mid)%string)) by lia.
  replace ("cdrom:" ++ mid ++ id ++ ";1" ++ rest)%string
    with (("cdrom:" ++ mid) ++ id ++ ";1" ++ rest)%string
    by (by rewrite !append_assoc).
  rewrite py_slice_mid. subst id.
  destruct a as [|a1 [|a2 [|a3 [|a4 [|? ?]]]]]; try discriminate Ha.
  destruct b as [|b1 [|b2 [|b3 [|? ?]]]]; try discriminate Hb.
  destruct c as [|c1 [|c2 [|? ?]]]; try discriminate Hc.
  unfold chars in Hascii.
  change (list_ascii_of_string _) with [a1; a2; a3; a4; s1; b1; b2; b3; s2; c1; c2]
    in Hascii.
  repeat match goal with
         | H : Forall _ (?x :: _) |- _ =>
             let Hx := fresh "Hx" in
             let u := fresh "u" in
             let Hu := fresh "Hu" in
             apply Forall_cons in H as [Hx H];
             destruct (upper_char_ascii x Hx) as [u Hu]
         end.
  repeat rewrite append_cons_l. repeat rewrite append_nil_l.
  cbn [upper]. rewrite Hu, Hu0, Hu1, Hu2, Hu3, Hu4, Hu5, Hu6, Hu7, Hu8, Hu9.
  eexists. split; [reflexivity|]. split; reflexivity.
Qed.

End GameIdMore.

(** X17.  When the text of [SYSTEM.CNF] names the boot file as
    [cdrom:...XXXX_NNN.NN;1], with [;1] first occurring right after the
    eleven characters of the file name and within the 50 characters that
    follow [cdrom:], and these eleven characters are ASCII,
    [get_gameid_from_iso] returns nine characters, [XXXXNNNNN] in upper
    case: the characters at positions 4 and 8 of the name are dropped,
    whatever they are. *)
Theorem get_gameid_standard (have_pycdlib : bool)
    (pycdlib_read : string -> result string)
    (iso9660_read : string -> result (option string))
    (path buf mid rest a b c : string) (s1 s2 : ascii) (i : nat) :
  (have_pycdlib = true -> exists t, pycdlib_read path = Ok t) ->
  iso9660_read path = Ok (Some buf) ->
  MagicWord.py_find "cdrom:" buf = Some i ->
  More.py_slice (Z.of_nat i) (Z.of_nat i + 50) buf =
    ("cdrom:" ++ mid ++ (a ++ String s1 (b ++ String s2 c)) ++ ";1" ++ rest)%string ->
  String.length a = 4%nat -> String.length b = 3%nat -> String.length c = 2%nat ->
  Forall (fun ch => (nat_of_ascii ch < 128)%nat)
         (More.chars (a ++ String s1 (b ++ String s2 c))) ->
  MagicWord.py_find ";1" (mid ++ a ++ String s1 (b ++ String s2 c)) = None ->
  exists id,
    More.get_gameid_from_iso have_pycdlib true pycdlib_read iso9660_read path
      = Some (Ok id) /\
    More.upper (a ++ b ++ c) = Some id /\
    String.length id = 9%nat.
Proof.
  intros Hpy Hiso Hfind Hwin Ha Hb Hc Hascii Hnone.
  destruct (game_id_of_standard buf mid rest a b c s1 s2 i Hfind Hwin Ha Hb Hc
              Hascii Hnone) as (id & Hid & Hup & Hlen).
  exists id. split; [|done].
  unfold More.get_gameid_from_iso, More.system_cnf. rewrite andb_false_r, Hiso.
  destruct have_pycdlib.
  - destruct (Hpy eq_refl) as [t ->]. rewrite !bind_ok. exact Hid.
  - rewrite !bind_ok. exact Hid.
Qed.

Lemma get_gameid_standard_witness :
  exists id,
    More.get_gameid_from_iso false true (fun _ => Raise FileNotFoundError)
      (fun _ => Ok (Some "BOOT = cdrom:\slus_007.08;1"%string)) "ISO0001.iso"
      = Some (Ok id) /\
    More.upper ("slus" ++ "007" ++ "08") = Some id /\
    String.length id = 9%nat.
Proof.
  apply (get_gameid_standard false (fun _ => Raise FileNotFoundError)
           (fun _ => Ok (Some "BOOT = cdrom:\slus_007.08;1"%string)) "ISO0001.iso"
           "BOOT = cdrom:\slus_007.08;1" "\" "" "slus" "007" "08" "_" "." 7);
    first [ discriminate | reflexivity | idtac ].
  repeat (apply List.Forall_cons; [vm_compute; lia|]). apply List.Forall_nil.
Defined.

(** ** Patching a copy of the disc *)

Section PatchDiscsMore.
Import More Libcrypt.

Lemma append_inj_l (a b c : string) : (a ++ b = a ++ c)%string -> b = c.
Proof.
  induction a as [|x a IH]; [done|]. rewrite !append_cons_l. intros [= H]. by apply IH.
Qed.


Lemma imgs_from_lines_nil (cue : string) (lines : list string) f fs :
  imgs_from_lines cue lines = inr (f :: fs) -> lines <> [].
Proof. by destruct lines. Qed.

End PatchDiscsMore.



(** ** The TOC synthesizer: what every returned TOC looks like *)

Lemma bind_inv {A B} (m : result A) (k : A -> result B) (b : B) :
  m ≫= k = Ok b -> exists a, m = Ok a /\ k a = Ok b.
Proof. destruct m as [a|e]; [eauto|discriminate]. Qed.

Lemma bytearray_set_inv (b b' : list Z) (i : nat) (v : Z) :
  bytearray_set b i v = Ok b' -> b' = <[i := v]> b.
Proof.
  unfold bytearray_set.
  destruct (bool_decide (i < length b)%nat && (0 <=? v) && (v <? 256));
    [by intros [= <-]|discriminate].
Qed.

Ltac step H :=
  let a := fresh "a" in
  let Ha := fresh "Ha" in
  apply bind_inv in H as (a & Ha & H);
  try (apply bytearray_set_inv in Ha; subst a).

Section TocShape.
Import Toc TocSpec.

Lemma track_step_shape (st st' : track_state) (line : string) :
  track_step st line = Ok st' -> length (ts_buf st) = 10%nat ->
  length (ts_buf st') = 10%nat /\
  ts_toc st' = ts_toc st ++ (if is_track_line line then ts_buf st' else []).
Proof.
  unfold track_step, is_track_line. intros H Hbuf.
  destruct (re_search_start "data" line), (re_search_start "track" line);
    cbn [negb andb orb] in *;
    try (injection H as <-; rewrite app_nil_r; done);
    do 8 step H; injection H as <-; cbn [ts_buf ts_toc];
    rewrite !length_insert; done.
Qed.

Lemma track_loop_shape (lines : list string) (st st' : track_state) :
  for_each track_step st lines = Ok st' -> length (ts_buf st) = 10%nat ->
  length (ts_toc st') =
    (length (ts_toc st) + 10 * length (List.filter is_track_line lines))%nat /\
  take (length (ts_toc st)) (ts_toc st') = ts_toc st.
Proof.
  revert st. induction lines as [|line lines IH]; intros st H Hbuf.
  - injection H as <-. cbn [List.filter length]. split; [lia|apply firstn_all].
  - rewrite for_each_cons in H. apply bind_inv in H as (st1 & H1 & H).
    destruct (track_step_shape _ _ _ H1 Hbuf) as [Hbuf1 Htoc1].
    destruct (IH st1 H Hbuf1) as [Hlen Htake]. cbn [List.filter].
    assert (Hle : (length (ts_toc st) <= length (ts_toc st1))%nat)
      by (rewrite Htoc1, length_app; lia).
    split.
    + rewrite Hlen, Htoc1, length_app.
      destruct (is_track_line line); cbn [length]; [rewrite Hbuf1|]; lia.
    + rewrite <- (Nat.min_l _ _ Hle), <- take_take, Htake, Htoc1.
      apply take_app_length.
Qed.

End TocShape.

(** X19.  Every TOC that [get_toc_from_cu2] returns, for any descriptor
    whatever, has 30 bytes of header followed by ten bytes for each
    [data]/[track] line, and its header is the fixed template except at
    offsets 17, 27, 28 and 29. *)
Theorem toc_shape (lines : list string) (toc : list Z) :
  Toc.toc_from_lines lines = Ok toc ->
  length toc = (30 + 10 * length (List.filter TocSpec.is_track_line lines))%nat /\
  (forall i, (i < 30)%nat -> i <> 17%nat -> i <> 27%nat -> i <> 28%nat -> i <> 29%nat ->
     toc !! i = Toc._toc_header !! i).
Proof.
  unfold Toc.toc_from_lines. cbv zeta. intros H.
  do 11 step H. injection H as <-.
  match goal with
  | Hloop : for_each Toc.track_step (Toc.TrackState _ ?h _) _ = Ok ?st |- _ =>
      set (hdr := h) in *;
      assert (Hhdr : length hdr = 30%nat) by (subst hdr; by rewrite !length_insert);
      destruct (track_loop_shape _ _ _ Hloop ltac:(reflexivity)) as [Hlen Htake];
      cbn [Toc.ts_toc] in Hlen, Htake; rewrite Hhdr in Hlen, Htake;
      split; [exact Hlen|];
      intros i Hi H17 H27 H28 H29;
      rewrite <- (lookup_take_lt (Toc.ts_toc st) 30 i) by exact Hi; rewrite Htake
  end.
  subst hdr. by rewrite !list_lookup_insert_ne by congruence.
Qed.

Lemma toc_shape_witness :
  length (TocSpec.header_of 5 (1, 2, 3) ++ TocSpec.records 1 [(0, 2, 0)]) =
    (30 + 10 * length (List.filter TocSpec.is_track_line More.cu2_five_declared))%nat /\
  (forall i, (i < 30)%nat -> i <> 17%nat -> i <> 27%nat -> i <> 28%nat -> i <> 29%nat ->
     (TocSpec.header_of 5 (1, 2, 3) ++ TocSpec.records 1 [(0, 2, 0)]) !! i
       = Toc._toc_header !! i).
Proof.
  apply (toc_shape More.cu2_five_declared).
  apply toc_from_lines_readable, cu2_five_declared_readable.
Defined.

(** ** Installing the images for RetroArch *)

Section RetroarchMore.
Import More Libcrypt.

Lemma append_inj_r (a b c : string) : (a ++ c = b ++ c)%string -> a = b.
Proof.
  revert b. induction a as [|x a IH]; intros [|y b] H.
  - done.
  - apply (f_equal String.length) in H. rewrite append_nil_l, length_append in H.
    cbn [String.length] in H. lia.
  - apply (f_equal String.length) in H. rewrite append_nil_l, length_append in H.
    cbn [String.length] in H. lia.
  - rewrite !append_cons_l in H. injection H as -> H. f_equal. by apply IH.
Qed.

Lemma img_name_inj (title : string) (i j : nat) :
  img_name title i = img_name title j -> i = j.
Proof.
  unfold img_name. intros H.
  apply append_inj_l, append_inj_l in H. apply append_inj_r in H.
  by apply pretty_nat_inj in H.
Qed.

Lemma dest_inj (dest title : string) (i j : nat) :
  (dest ++ "/" ++ img_name title i = dest ++ "/" ++ img_name title j)%string -> i = j.
Proof. intros H. apply append_inj_l, append_inj_l in H. by apply img_name_inj in H. Qed.

Lemma copy_file_to (inp oup : string) (fs : filesystem) (d : list Z) :
  fs !! inp = Some d -> inp <> oup ->
  copy_file inp oup fs = Some (<[oup := d]> fs, None).
Proof.
  intros Hinp Hne. unfold copy_file. rewrite Hinp.
  rewrite (copy_loop_spec _ inp oup d 0 (<[oup := []]> fs) Hne);
    [by rewrite insert_insert_eq | | | lia | lia].
  - rewrite lookup_insert_ne by congruence. exact Hinp.
  - rewrite take_0. apply lookup_insert_eq.
Qed.

Lemma install_from_spec (verbose : bool) (encode : string -> list Z)
    (dirs : Type) (open_wb : dirs -> string -> option exn) (ds : dirs)
    (dest title : string) (imgs : list string) :
  forall (datas : list (list Z)) (i : nat) (md : list Z) (w : world),
  Forall2 (fun img d => w_fs w !! img = Some d) imgs datas ->
  (forall img j, img ∈ imgs -> img <> (dest ++ "/" ++ img_name title j)%string) ->
  (forall k, (k < length imgs)%nat ->
     open_wb ds (dest ++ "/" ++ img_name title (i + k))%string = None) ->
  exists w',
    install_from verbose encode dirs open_wb ds dest title imgs i md w
      = Some (md ++ playlist encode title i (length imgs), w', None) /\
    w_temp_files w' = w_temp_files w /\
    (forall k d, datas !! k = Some d ->
       w_fs w' !! (dest ++ "/" ++ img_name title (i + k))%string = Some d) /\
    (forall f, (forall k, (k < length imgs)%nat ->
                  f <> (dest ++ "/" ++ img_name title (i + k))%string) ->
       w_fs w' !! f = w_fs w !! f).
Proof.
  induction imgs as [|img imgs IH]; intros datas i md w Hall Hsrc Hopen.
  - exists w. cbn [install_from playlist length]. rewrite app_nil_r.
    apply Forall2_nil_inv_l in Hall as ->.
    split; [reflexivity|]. split; [reflexivity|]. split; [|done].
    intros k d' Hk. by rewrite lookup_nil in Hk.
  - apply Forall2_cons_inv_l in Hall as (d & datas' & Himg & Hall & ->).
    cbn [install_from]. cbv zeta.
    set (w1 := if verbose then _ else w).
    assert (Hfs1 : w_fs w1 = w_fs w) by (subst w1; by destruct verbose).
    assert (Htmp1 : w_temp_files w1 = w_temp_files w) by (subst w1; by destruct verbose).
    unfold copy_into. rewrite Hfs1, Himg.
    pose proof (Hopen 0%nat ltac:(cbn [length]; lia)) as Ho. rewrite Nat.add_0_r in Ho.
    rewrite Ho, (copy_file_to _ _ _ d Himg)
      by (apply Hsrc; apply elem_of_cons; by left).
    set (w2 := World _ _ _).
    assert (Hall2 : Forall2 (fun img d => w_fs w2 !! img = Some d) imgs datas').
    { apply Forall2_same_length_lookup in Hall as [Hlen Hlk].
      apply Forall2_same_length_lookup. split; [exact Hlen|].
      intros k x y Hx Hy. subst w2. cbn [w_fs].
      rewrite lookup_insert_ne; [by apply (Hlk k)|].
      intros Heq. apply (Hsrc x i); [|done].
      apply elem_of_cons. right. by apply list_elem_of_lookup_2 in Hx. }
    destruct (IH datas' (S i) (md ++ encode (img_name title i ++ crlf)%string) w2 Hall2)
      as (w' & Hrun & Htmp & Hdst & Hrest).
    { intros x j Hx. apply Hsrc. apply elem_of_cons. by right. }
    { intros k Hk. rewrite Nat.add_succ_comm. apply Hopen. cbn [length]. lia. }
    exists w'. split; [|split; [|split]].
    + rewrite Hrun. cbn [playlist length]. by rewrite <- app_assoc.
    + rewrite Htmp. subst w2. cbn [w_temp_files]. exact Htmp1.
    + intros [|k] d' Hk.
      * injection Hk as <-. rewrite Nat.add_0_r, Hrest.
        -- subst w2. cbn [w_fs]. apply lookup_insert_eq.
        -- intros k Hk Heq. apply dest_inj in Heq. lia.
      * rewrite <- Nat.add_succ_comm. by apply Hdst.
    + intros f Hf. rewrite Hrest.
      * subst w2. cbn [w_fs]. rewrite lookup_insert_ne; [done|].
        intros Heq. apply (Hf 0%nat); [cbn [length]; lia|]. by rewrite Nat.add_0_r.
      * intros k Hk. rewrite Nat.add_succ_comm. apply Hf. cbn [length]. lia.
Qed.

End RetroarchMore.

(** X20.  [create_retroarch_bin] first tries to make the directory [dest]
    and ignores a failure.  When the playlist [dest/title.m3u] cannot be
    opened afterwards, that error is raised and no file has changed.  When
    it and the image files can be opened, image number [i] is installed as
    [dest/title-i.img] with the contents of [img_files[i]], the playlist
    holds one line [title-i.img] (ended by CR LF) per image in order, and
    every other file is as it was; no source image being itself one of the
    installed files or the playlist. *)
Theorem create_retroarch_bin_installs (verbose : bool) (encode : string -> list Z)
    (dirs : Type) (os_mkdir : string -> dirs -> result dirs)
    (open_wb : dirs -> string -> option exn)
    (dest title : string) (cue_files img_files : list string)
    (datas : list (list Z)) (ds : dirs) (w : Libcrypt.world) :
  let ds' := More.after_mkdir dirs os_mkdir dest ds in
  let m3u := (dest ++ "/" ++ title ++ ".m3u")%string in
  let run := More.create_retroarch_bin verbose encode dirs os_mkdir open_wb
               dest title cue_files img_files ds w in
  (forall e, open_wb ds' m3u = Some e -> run = Some (ds', w, Some e)) /\
  (open_wb ds' m3u = None ->
   (forall i, (i < length img_files)%nat ->
      open_wb ds' (dest ++ "/" ++ More.img_name title i)%string = None) ->
   Forall2 (fun img d => Libcrypt.w_fs w !! img = Some d) img_files datas ->
   (forall img j, img ∈ img_files ->
      img <> (dest ++ "/" ++ More.img_name title j)%string) ->
   m3u ∉ img_files ->
   exists w',
     run = Some (ds', w', None) /\
     Libcrypt.w_fs w' !! m3u = Some (More.playlist encode title 0 (length img_files)) /\
     (forall i d, datas !! i = Some d ->
        Libcrypt.w_fs w' !! (dest ++ "/" ++ More.img_name title i)%string = Some d) /\
     (forall f, f <> m3u ->
        (forall i, (i < length img_files)%nat ->
           f <> (dest ++ "/" ++ More.img_name title i)%string) ->
        Libcrypt.w_fs w' !! f = Libcrypt.w_fs w !! f)).
Proof.
  intros ds' m3u run. subst run. unfold More.create_retroarch_bin. cbv zeta.
  fold ds' m3u. split.
  { intros e He. by rewrite He. }
  intros Hopen Hopens Hall Hsrc Hm3u. rewrite Hopen.
  set (w0 := Libcrypt.World _ _ _).
  assert (Hname : forall i, m3u <> (dest ++ "/" ++ More.img_name title i)%string).
  { intros i Heq. subst m3u. unfold More.img_name in Heq.
    apply append_inj_l, append_inj_l, append_inj_l in Heq.
    apply (f_equal More.last_char) in Heq.
    change (".m3u")%string with ((".m3") ++ String "u" EmptyString)%string in Heq.
    change (".img")%string with ((".im") ++ String "g" EmptyString)%string in Heq.
    rewrite <- !append_assoc, !last_char_snoc in Heq. discriminate Heq. }
  assert (Hall0 : Forall2 (fun img d => Libcrypt.w_fs w0 !! img = Some d) img_files datas).
  { apply Forall2_same_length_lookup in Hall as [Hlen Hlk].
    apply Forall2_same_length_lookup. split; [exact Hlen|].
    intros k x y Hx Hy. subst w0. cbn [Libcrypt.w_fs].
    rewrite lookup_insert_ne; [by apply (Hlk k)|].
    intros Heq. apply Hm3u. rewrite Heq. by apply list_elem_of_lookup_2 in Hx. }
  destruct (install_from_spec verbose encode dirs open_wb ds' dest title img_files
              datas 0 [] w0 Hall0 Hsrc Hopens)
    as (w' & Hrun & _ & Hdst & Hrest).
  rewrite Hrun. eexists. split; [reflexivity|]. cbn [Libcrypt.w_fs app].
  split; [apply lookup_insert_eq|]. split.
  - intros i d Hi. rewrite lookup_insert_ne by apply Hname. by apply Hdst.
  - intros f Hf1 Hf2. rewrite lookup_insert_ne by congruence.
    rewrite Hrest by exact Hf2. subst w0. cbn [Libcrypt.w_fs].
    by rewrite lookup_insert_ne by congruence.
Qed.

Lemma create_retroarch_bin_installs_witness :
  exists w',
    More.create_retroarch_bin false More.ascii_encode unit (fun _ ds => Ok ds)
      (fun _ _ => None) "out" "Game" []
      ["a.bin"; "b.bin"]%string tt (Libcrypt.World More.fs_two_images [] [])
      = Some (tt, w', None) /\
    Libcrypt.w_fs w' !! ("out" ++ "/" ++ "Game" ++ ".m3u")%string
      = Some (More.playlist More.ascii_encode "Game" 0
                (length ["a.bin"; "b.bin"]%string)) /\
    (forall i d, [[1; 2]; [3]] !! i = Some d ->
       Libcrypt.w_fs w' !! ("out" ++ "/" ++ More.img_name "Game" i)%string = Some d) /\
    (forall f, f <> ("out" ++ "/" ++ "Game" ++ ".m3u")%string ->
       (forall i, (i < length ["a.bin"; "b.bin"]%string)%nat ->
          f <> ("out" ++ "/" ++ More.img_name "Game" i)%string) ->
       Libcrypt.w_fs w' !! f
         = Libcrypt.w_fs (Libcrypt.World More.fs_two_images [] []) !! f).
Proof.
  apply (proj2 (create_retroarch_bin_installs false More.ascii_encode unit
                  (fun _ ds => Ok ds) (fun _ _ => None) "out" "Game" []
                  ["a.bin"; "b.bin"]%string [[1; 2]; [3]] tt
                  (Libcrypt.World More.fs_two_images [] []))).
  - reflexivity.
  - reflexivity.
  - repeat (apply List.Forall2_cons; [vm_compute; reflexivity|]).
    apply List.Forall2_nil.
  - intros img j Hin Heq. rewrite !elem_of_cons, elem_of_nil in Hin.
    destruct Hin as [->|[->|[]]]; discriminate Heq.
  - rewrite !not_elem_of_cons. repeat split; try discriminate. apply not_elem_of_nil.
Defined.
